(** * FNOL claims triage: field extraction, completeness check, routing

    A shallow embedding of [src/main.py] and the properties of its
    extractor ([extract_fields]), completeness checker
    ([find_missing_fields]), amount parser ([parse_amount]) and router
    ([route_claim]).

    Conventions of the embedding.
    - A Python [str] is a [string]; a character is a code point in
      U+0000..U+00FF.  The character predicates below ([isspace],
      [isdecimal], [tolower]) are CPython's on that range.
    - [None] is [None]; a value that is "a string or None" is an
      [option string].
    - A [dict] with string keys is a [gmap string _].
    - A Python [float] is a binary64 number, a [spec_float] at precision 53
      and maximal exponent 1024.
    - An exception is a [Raise] in the [result] type; a function of the
      source that cannot raise is a plain function. *)

From Stdlib Require Import ZArith NArith Ascii String Bool Lia.
From Stdlib Require Import SpecFloat DecimalString.
From stdpp Require Import base option list strings gmap.

Local Open Scope Z_scope.
Set Warnings "-comment-terminator-in-string".

(** ** Exceptions *)

Inductive exn : Type :=
| ValueError
| KeyError (k : string)
| AttributeError.

Inductive result (A : Type) : Type :=
| Ok (a : A)
| Raise (e : exn).

Arguments Ok {A} a.
Arguments Raise {A} e.

Definition bind {A B : Type} (x : result A) (k : A -> result B) : result B :=
  match x with
  | Ok a => k a
  | Raise e => Raise e
  end.

Notation "'let*' x ':=' c 'in' k" := (bind c (fun x => k))
  (at level 10, x name, c at level 100, k at level 200).

(** ** Characters and strings *)

Module Py.

Definition ord (c : ascii) : Z := Z.of_N (N_of_ascii c).

Definition between (lo hi : Z) (c : ascii) : bool :=
  (lo <=? ord c) && (ord c <=? hi).

(** [Py_UNICODE_ISSPACE]: TAB..CR, FS..US, SPACE, NEL, NBSP. *)
Definition isspace (c : ascii) : bool :=
  between 9 13 c || between 28 32 c || (ord c =? 133) || (ord c =? 160).

(** [Py_UNICODE_ISDECIMAL]: the ten ASCII digits. *)
Definition isdecimal (c : ascii) : bool := between 48 57 c.

(** [Py_UNICODE_TOLOWER]: A..Z and the Latin-1 capitals (all of
    U+00C0..U+00DE but the multiplication sign) move up by 32. *)
Definition isupper (c : ascii) : bool :=
  between 65 90 c || (between 192 222 c && negb (ord c =? 215)).

Definition tolower (c : ascii) : ascii :=
  if isupper c then ascii_of_N (Z.to_N (ord c + 32)) else c.

(** [str.lower] *)
Fixpoint lower (s : string) : string :=
  match s with
  | EmptyString => EmptyString
  | String c s' => String (tolower c) (lower s')
  end.

Fixpoint lstrip (s : string) : string :=
  match s with
  | EmptyString => EmptyString
  | String c s' => if isspace c then lstrip s' else s
  end.

Fixpoint rstrip (s : string) : string :=
  match s with
  | EmptyString => EmptyString
  | String c s' =>
      match rstrip s' with
      | EmptyString => if isspace c then EmptyString else String c EmptyString
      | r => String c r
      end
  end.

(** [str.strip] without argument *)
Definition strip (s : string) : string := rstrip (lstrip s).

(** [w in s] on strings *)
Fixpoint contains (w s : string) : bool :=
  String.prefix w s ||
  match s with
  | EmptyString => false
  | String _ s' => contains w s'
  end.

(** [sep.join(l)] *)
Definition join (sep : string) (l : list string) : string :=
  String.concat sep l.

(** Truth value of a string or [None]: [None] and [""] are false. *)
Definition truthy (v : option string) : bool :=
  match v with
  | None | Some EmptyString => false
  | Some _ => true
  end.

(** [a or b] on values that are strings or [None] *)
Definition or_else (a b : option string) : option string :=
  if truthy a then a else b.

(** [any(p(w) for w in l)] *)
Definition any {A : Type} (p : A -> bool) (l : list A) : bool := existsb p l.

End Py.

(** ** Floating point numbers (binary64) *)

Module Float.

Definition prec : Z := 53.
Definition emax : Z := 1024.

Definition float : Type := spec_float.

Definition zero : float := S754_zero false.

Definition pow10 (k : nat) : positive := Nat.iter k (Pos.mul 10) 1%positive.

(** The binary64 number nearest to [m / 10^k] (ties to even), the value
    CPython's [float] gives a decimal numeral, infinity on overflow. *)
Definition of_decimal (m : N) (k : nat) : float :=
  match m with
  | N0 => zero
  | Npos p =>
      SFdiv prec emax (S754_finite false p 0) (S754_finite false (pow10 k) 0)
  end.

(** *** [float(n)] on numerals

    [parse_amount] only ever hands [float] a string over the alphabet of
    the ten digits and the point.  On that alphabet [float] accepts
    exactly the strings with at least one digit and at most one point;
    everything else is a [ValueError].  (Signs, exponents, underscores,
    blanks and the names of the special values, which [float] also reads,
    are outside the alphabet and are not modelled: [of_str] rejects
    them.) *)

Record numeral : Type := Numeral {
  mant : N;          (* the digits read so far, as a number *)
  scale : nat;       (* how many of them came after the point *)
  seen_point : bool;
  seen_digit : bool
}.

Definition digit_value (c : ascii) : N := (N_of_ascii c - 48)%N.

Fixpoint scan (s : string) (st : numeral) : result numeral :=
  match s with
  | EmptyString => Ok st
  | String c s' =>
      if Py.isdecimal c then
        scan s' {| mant := (10 * mant st + digit_value c)%N;
                   scale := if seen_point st then S (scale st) else scale st;
                   seen_point := seen_point st;
                   seen_digit := true |}
      else if Ascii.eqb c "." then
        if seen_point st then Raise ValueError
        else scan s' {| mant := mant st; scale := scale st;
                        seen_point := true; seen_digit := seen_digit st |}
      else Raise ValueError
  end.

Definition of_str (n : string) : result float :=
  let* st := scan n (Numeral 0 0 false false) in
  if seen_digit st then Ok (of_decimal (mant st) (scale st))
  else Raise ValueError.

(** *** Comparison and truth value *)

(** An [int] below [2^53] in absolute value converts exactly, so that
    comparing a float with it compares the two values. *)
Definition of_int (n : Z) : float := binary_normalize prec emax n 0 false.

Definition ltb (x y : float) : bool := SFltb x y.

(** [bool(x)]: every float but the two zeros is true. *)
Definition truthy (x : float) : bool :=
  match x with
  | S754_zero _ => false
  | _ => true
  end.

(** *** [repr]

    [repr(x)] is the shortest decimal numeral that [float] reads back as
    [x] and, among those, the one nearest to [x]; it is printed with a
    point, or with an exponent when the decimal point position [decpt]
    (the value is [0.d1d2... * 10^decpt]) is at most [-4] or above [16]. *)

(** [x * 10^j] for the fraction [x = num/den] *)
Definition scale10 (x : Z * Z) (j : Z) : Z * Z :=
  if 0 <=? j then (fst x * 10 ^ j, snd x) else (fst x, snd x * 10 ^ (- j)).

Definition frac_ltb (x : Z * Z) (n : Z) : bool := fst x <? n * snd x.

(** A finite positive float [m * 2^e] as a fraction *)
Definition to_frac (m : positive) (e : Z) : Z * Z :=
  if 0 <=? e then (Zpos m * 2 ^ e, 1) else (Zpos m, 2 ^ (- e)).

(** The least [d] from [d0] on with [x < 10^d] *)
Fixpoint find_decpt (fuel : nat) (x : Z * Z) (d : Z) : Z :=
  match fuel with
  | O => d
  | S fuel' => if frac_ltb (scale10 x (- d)) 1 then d else find_decpt fuel' x (d + 1)
  end.

Definition decpt_of (x : Z * Z) : Z := find_decpt 640 x (-324).

(** The float read from the numeral [c * 10^j] *)
Definition read_back (c : Z) (j : Z) : float :=
  if 0 <=? j then of_decimal (Z.to_N (c * 10 ^ j)) 0
  else of_decimal (Z.to_N c) (Z.to_nat (- j)).

Definition same (x y : float) : bool := SFeqb x y.

(** The [n]-digit candidate for [x], if one of the two integers around
    [x / 10^(d-n)] reads back as [x] *)
Definition candidate (x : float) (fr : Z * Z) (d : Z) (n : Z) : option Z :=
  let v := scale10 fr (n - d) in
  let lo := fst v / snd v in
  let r := fst v mod snd v in
  let ok_lo := same (read_back lo (d - n)) x in
  let ok_hi := same (read_back (lo + 1) (d - n)) x in
  match ok_lo, ok_hi with
  | true, true =>
      match (2 * r ?= snd v) with
      | Lt => Some lo
      | Gt => Some (lo + 1)
      | Eq => Some (if Z.even lo then lo else lo + 1)
      end
  | true, false => Some lo
  | false, true => Some (lo + 1)
  | false, false => None
  end.

Fixpoint shortest (fuel : nat) (x : float) (fr : Z * Z) (d : Z) (n : Z) : Z * Z :=
  match fuel with
  | O => (fst (scale10 fr (n - d)) / snd (scale10 fr (n - d)), n)
  | S fuel' =>
      match candidate x fr d n with
      | Some c => (c, n)
      | None => shortest fuel' x fr d (n + 1)
      end
  end.

Fixpoint strip_zeros (fuel : nat) (c : Z) : Z :=
  match fuel with
  | O => c
  | S fuel' => if (c mod 10 =? 0) && negb (c =? 0) then strip_zeros fuel' (c / 10) else c
  end.

Definition digits_of (c : Z) : string :=
  NilZero.string_of_uint (N.to_uint (Z.to_N c)).

Definition zeros (n : Z) : string :=
  Nat.iter (Z.to_nat n) (String "0") EmptyString.

Definition substring_from (n : nat) (s : string) : string :=
  String.substring n (String.length s - n) s.

Definition format_r (digits : string) (decpt : Z) : string :=
  let len := Z.of_nat (String.length digits) in
  if (decpt <=? -4) || (16 <? decpt) then
    let e := decpt - 1 in
    let ds := digits_of (Z.abs e) in
    String.substring 0 1 digits
    +:+ (if 1 <? len then "." +:+ substring_from 1 digits else "")
    +:+ "e" +:+ (if e <? 0 then "-" else "+")
    +:+ (if Z.abs e <? 10 then "0" +:+ ds else ds)
  else if decpt <=? 0 then
    "0." +:+ zeros (- decpt) +:+ digits
  else if len <=? decpt then
    digits +:+ zeros (decpt - len) +:+ ".0"
  else
    String.substring 0 (Z.to_nat decpt) digits +:+ "." +:+
    substring_from (Z.to_nat decpt) digits.

Definition repr (x : float) : string :=
  match x with
  | S754_nan => "nan"
  | S754_infinity s => if s then "-inf" else "inf"
  | S754_zero s => if s then "-0.0" else "0.0"
  | S754_finite s m e =>
      let ax := S754_finite false m e in
      let fr := to_frac m e in
      let d := decpt_of fr in
      let '(c, n) := shortest 17 ax fr d 1 in
      let ds := digits_of (strip_zeros 17 c) in
      let decpt := d + (Z.of_nat (String.length (digits_of c)) - n) in
      (if s then "-" else "") +:+ format_r ds decpt
  end.

End Float.

(** ** Regular expressions

    The fragment of Python's [re] the extractor uses, with the backtracking
    order of the [sre] engine: alternatives left to right, a greedy
    repetition longest first, a lazy one shortest first.  Every repetition
    of the source is over a single character or character set, except the
    optional group [(?:AM|PM)?]. *)

Module Re.

Record flags : Type := Flags { ignorecase : bool; dotall : bool }.

(** [re.I | re.S] and [re.I] *)
Definition I_S : flags := Flags true true.
Definition I : flags := Flags true false.
Definition no_flags : flags := Flags false false.

Definition LF : ascii := ascii_of_nat 10.

(** A member of a character set [[...]] *)
Inductive item : Type :=
| Lit (c : ascii)            (* a character *)
| Range (lo hi : ascii)      (* [lo-hi] *)
| Space                      (* [\s] *)
| Digit.                     (* [\d] *)

(** What matches one character *)
Inductive cset : Type :=
| Dot                        (* [.] *)
| In (items : list item)     (* [[...]], a literal, or [\s] *)
| NotIn (items : list item). (* [[^...]] *)

Inductive regex : Type :=
| Empty
| Char (cs : cset)
| Seq (r1 r2 : regex)
| Alt (r1 r2 : regex)                                      (* [r1|r2] *)
| Repeat (greedy : bool) (lo : nat) (hi : option nat) (cs : cset)
| Optional (r : regex)                                     (* [(?:r)?] *)
| Group (r : regex)                                        (* [(r)], group 1 *)
| AtEnd.                                                   (* [\Z] *)

(** Under [re.I] the engine compares the lower-cased subject character
    with the lower-cased members of the set. *)
Definition same_char (fl : flags) (c a : ascii) : bool :=
  if ignorecase fl then Ascii.eqb (Py.tolower c) (Py.tolower a)
  else Ascii.eqb c a.

Definition item_matches (fl : flags) (i : item) (a : ascii) : bool :=
  match i with
  | Lit c => same_char fl c a
  | Range lo hi =>
      existsb (fun n => same_char fl (ascii_of_nat n) a)
              (seq (nat_of_ascii lo) (S (nat_of_ascii hi) - nat_of_ascii lo))
  | Space => Py.isspace a
  | Digit => Py.isdecimal a
  end.

Definition cset_matches (fl : flags) (cs : cset) (a : ascii) : bool :=
  match cs with
  | Dot => dotall fl || negb (Ascii.eqb a LF)
  | In items => existsb (fun i => item_matches fl i a) items
  | NotIn items => negb (existsb (fun i => item_matches fl i a) items)
  end.

(** The part of [s] before its suffix [s'] *)
Definition consumed (s s' : string) : string :=
  String.substring 0 (String.length s - String.length s') s.

Definition may_take (hi : option nat) : bool :=
  match hi with
  | Some O => false
  | _ => true
  end.

Definition one_less (hi : option nat) : option nat :=
  match hi with
  | Some n => Some (Nat.pred n)
  | None => None
  end.

Section Matcher.
Context {A : Type}.
Variable fl : flags.

(** A continuation gets the rest of the subject and group 1. *)
Definition cont : Type := string -> option string -> option A.

Definition orelse (x y : option A) : option A :=
  match x with
  | Some a => Some a
  | None => y
  end.

(** Between [lo] and [hi] characters of [cs], as many as possible
    first. *)
Fixpoint repeat_greedy (cs : cset) (lo : nat) (hi : option nat)
         (k : cont) (s : string) (g : option string) : option A :=
  let stop := if Nat.eqb lo 0 then k s g else None in
  match s with
  | EmptyString => stop
  | String a s' =>
      if may_take hi && cset_matches fl cs a
      then orelse (repeat_greedy cs (Nat.pred lo) (one_less hi) k s' g) stop
      else stop
  end.

(** Between [lo] and [hi] characters of [cs], as few as possible
    first. *)
Fixpoint repeat_lazy (cs : cset) (lo : nat) (hi : option nat)
         (k : cont) (s : string) (g : option string) : option A :=
  let stop := if Nat.eqb lo 0 then k s g else None in
  match s with
  | EmptyString => stop
  | String a s' =>
      if may_take hi && cset_matches fl cs a
      then orelse stop (repeat_lazy cs (Nat.pred lo) (one_less hi) k s' g)
      else stop
  end.

Fixpoint matchk (r : regex) (k : cont) (s : string) (g : option string)
  : option A :=
  match r with
  | Empty => k s g
  | Char cs =>
      match s with
      | String a s' => if cset_matches fl cs a then k s' g else None
      | EmptyString => None
      end
  | Seq r1 r2 => matchk r1 (matchk r2 k) s g
  | Alt r1 r2 => orelse (matchk r1 k s g) (matchk r2 k s g)
  | Repeat true lo hi cs => repeat_greedy cs lo hi k s g
  | Repeat false lo hi cs => repeat_lazy cs lo hi k s g
  | Optional r1 => orelse (matchk r1 k s g) (k s g)
  | Group r1 => matchk r1 (fun s' _ => k s' (Some (consumed s s'))) s g
  | AtEnd =>
      match s with
      | EmptyString => k s g
      | String _ _ => None
      end
  end.
End Matcher.

(** A match object, as far as the program looks at it: group 1, [None]
    when the group took no part in the match. *)
Record match_object : Type := Match { group1 : option string }.

Definition match_here (fl : flags) (r : regex) (s : string) : option match_object :=
  matchk fl r (fun _ g => Some (Match g)) s None.

(** [re.search]: the first match at the leftmost position that has one. *)
Fixpoint search (fl : flags) (r : regex) (s : string) : option match_object :=
  match match_here fl r s with
  | Some m => Some m
  | None =>
      match s with
      | EmptyString => None
      | String _ s' => search fl r s'
      end
  end.

(** [re.sub] for a pattern [p] that is one character set:
    each matching character is replaced by [repl]. *)
Fixpoint sub_chars (fl : flags) (cs : cset) (repl : string) (s : string) : string :=
  match s with
  | EmptyString => EmptyString
  | String a s' =>
      if cset_matches fl cs a then repl +:+ sub_chars fl cs repl s'
      else String a (sub_chars fl cs repl s')
  end.

(** A pattern in which every match goes through group 1 *)
Fixpoint sets_group (r : regex) : bool :=
  match r with
  | Group _ => true
  | Seq r1 r2 => sets_group r1 || sets_group r2
  | Alt r1 r2 => sets_group r1 && sets_group r2
  | _ => false
  end.

(** The continuation [k], cut down to the calls in which group 1 is set *)
Definition with_group {A : Type} (k : string -> option string -> option A)
  : string -> option string -> option A :=
  fun s g =>
    match g with
    | Some _ => k s g
    | None => None
    end.

(** [s] without the literal [w] at its start, compared under the flags;
    [None] when [s] does not start with [w]. *)
Fixpoint skip_literal (fl : flags) (w s : string) : option string :=
  match w with
  | EmptyString => Some s
  | String c w' =>
      match s with
      | String a s' => if same_char fl c a then skip_literal fl w' s' else None
      | EmptyString => None
      end
  end.

(** No line feed in [s] *)
Fixpoint one_line (s : string) : bool :=
  match s with
  | EmptyString => true
  | String a s' => negb (Ascii.eqb a LF) && one_line s'
  end.

(** Every character of [s] is in [cs] *)
Fixpoint all_in (fl : flags) (cs : cset) (s : string) : bool :=
  match s with
  | EmptyString => true
  | String a s' => cset_matches fl cs a && all_in fl cs s'
  end.

(** *** Writing patterns *)

Definition chr (c : ascii) : regex := Char (In [Lit c]).

(** A run of literal characters *)
Fixpoint lit (s : string) : regex :=
  match s with
  | EmptyString => Empty
  | String c EmptyString => chr c
  | String c s' => Seq (chr c) (lit s')
  end.

Fixpoint seqs (l : list regex) : regex :=
  match l with
  | [] => Empty
  | [r] => r
  | r :: l' => Seq r (seqs l')
  end.

Definition star (cs : cset) : regex := Repeat true 0 None cs.       (* [x*] *)
Definition plus (cs : cset) : regex := Repeat true 1 None cs.       (* [x+] *)
Definition opt (cs : cset) : regex := Repeat true 0 (Some 1%nat) cs.    (* [x?] *)
Definition star_lazy (cs : cset) : regex := Repeat false 0 None cs. (* [x*?] *)
Definition plus_lazy (cs : cset) : regex := Repeat false 1 None cs. (* [x+?] *)
Definition times (n : nat) (cs : cset) : regex := Repeat true n (Some n) cs. (* [x{n}] *)
Definition from_to (m n : nat) (cs : cset) : regex := Repeat true m (Some n) cs. (* [x{m,n}] *)
Definition at_least (m : nat) (cs : cset) : regex := Repeat true m None cs. (* [x{m,}] *)

End Re.

(** ** The program *)

Import Re.

Definition MANDATORY_FIELDS : list string := [
  "policy_number"; "policyholder_name"; "effective_dates";
  "incident_date"; "incident_time"; "incident_location";
  "incident_description"; "claimant"; "third_parties";
  "contact_details"; "asset_type"; "asset_id";
  "estimated_damage"; "claim_type"; "attachments";
  "initial_estimate"
].

(** ExtractedFields: the dict [f] of the source, from field names to a
    string or [None]. *)
Abbreviation fields := (gmap string (option string)).

(** [f.get(k)]: the value, [None] when the key is not there. *)
Definition get (f : fields) (k : string) : option string :=
  match f !! k with
  | Some v => v
  | None => None
  end.

(** [f[k]]: the value, a [KeyError] when the key is not there. *)
Definition getitem (f : fields) (k : string) : result (option string) :=
  match f !! k with
  | Some v => Ok v
  | None => Raise (KeyError k)
  end.

(** [str(v)] of a string or [None] *)
Definition str (v : option string) : string :=
  match v with
  | Some s => s
  | None => "None"
  end.

(** [v or d] for a default string [d] *)
Definition or_str (v : option string) (d : string) : string :=
  match v with
  | Some (String _ _ as s) => s
  | _ => d
  end.

(** *** The patterns of [extract_fields] *)

Definition colon_or_space : cset := In [Lit ":"; Space].          (* [[:\s]] *)
Definition not_newline : cset := NotIn [Lit LF].                   (* [[^\n]] *)
Definition digit09 : cset := In [Range "0" "9"].                   (* [[0-9]] *)
Definition blank : cset := In [Space].                             (* [\s] *)

(** r"POLICY\s*NUMBER[:\s]*([A-Z0-9\-]+)" *)
Definition pat_policy_number : regex :=
  seqs [lit "POLICY"; star blank; lit "NUMBER"; star colon_or_space;
        Group (plus (In [Range "A" "Z"; Range "0" "9"; Lit "-"]))].

(** r"NAME OF INSURED[^\n]*\n(.*)" *)
Definition pat_policyholder_name : regex :=
  seqs [lit "NAME OF INSURED"; star not_newline; chr LF; Group (star Dot)].

(** r"Effective\s*Dates?[:\s]*([0-9/.\-\s]+to[0-9/.\-\s]+)" *)
Definition date_chars : cset := In [Range "0" "9"; Lit "/"; Lit "."; Lit "-"; Space].
Definition pat_effective_dates : regex :=
  seqs [lit "Effective"; star blank; lit "Date"; opt (In [Lit "s"]);
        star colon_or_space;
        Group (seqs [plus date_chars; lit "to"; plus date_chars])].

(** r"DATE OF LOSS[:\s]*([0-9]{2}/[0-9]{2}/[0-9]{4})" *)
Definition pat_incident_date : regex :=
  seqs [lit "DATE OF LOSS"; star colon_or_space;
        Group (seqs [times 2 digit09; chr "/"; times 2 digit09; chr "/";
                     times 4 digit09])].

(** r"TIME[:\s]*([0-9]{1,2}:[0-9]{2}\s*(?:AM|PM)?)" *)
Definition pat_incident_time : regex :=
  seqs [lit "TIME"; star colon_or_space;
        Group (seqs [from_to 1 2 digit09; chr ":"; times 2 digit09; star blank;
                     Optional (Alt (lit "AM") (lit "PM"))])].

(** r"LOCATION OF LOSS[^\n]*\n(.*)" *)
Definition pat_incident_location : regex :=
  seqs [lit "LOCATION OF LOSS"; star not_newline; chr LF; Group (star Dot)].

(** r"DESCRIPTION OF ACCIDENT[^\n]*\n(.+?)(?:\n[A-Z ]{5,}:|\Z)" *)
Definition pat_incident_description : regex :=
  seqs [lit "DESCRIPTION OF ACCIDENT"; star not_newline; chr LF;
        Group (plus_lazy Dot);
        Alt (seqs [chr LF; at_least 5 (In [Range "A" "Z"; Lit " "]); chr ":"])
            AtEnd].

(** r"CLAIMANT[:\s]*([^\n]+)" *)
Definition pat_claimant : regex :=
  seqs [lit "CLAIMANT"; star colon_or_space; Group (plus not_newline)].

(** r"THIRD PART(?:Y|IES)[:\s]*([^\n]+)" *)
Definition pat_third_parties : regex :=
  seqs [lit "THIRD PART"; Alt (lit "Y") (lit "IES"); star colon_or_space;
        Group (plus not_newline)].

(** r"PHONE\s*#.*?\n(.+?)(?:\n\n|\Z)" *)
Definition pat_contact_details : regex :=
  seqs [lit "PHONE"; star blank; chr "#"; star_lazy Dot; chr LF;
        Group (plus_lazy Dot);
        Alt (seqs [chr LF; chr LF]) AtEnd].

(** r"V\.?I\.?N\.?[:\s]*([A-HJ-NPR-Z0-9]{11,17})" *)
Definition pat_asset_id : regex :=
  seqs [chr "V"; opt (In [Lit "."]); chr "I"; opt (In [Lit "."]); chr "N";
        opt (In [Lit "."]); star colon_or_space;
        Group (from_to 11 17
                 (In [Range "A" "H"; Range "J" "N"; Lit "P"; Range "R" "Z";
                      Range "0" "9"]))].

(** r"[$]?\s*[0-9,\.]+", the amount after a label *)
Definition amount : regex :=
  seqs [opt (In [Lit "$"]); star blank; plus (In [Range "0" "9"; Lit ","; Lit "."])].

(** r"ESTIMATE AMOUNT[:\s]*([$]?\s*[0-9,\.]+)" *)
Definition pat_estimated_damage : regex :=
  seqs [lit "ESTIMATE AMOUNT"; star colon_or_space; Group amount].

(** r"CLAIM TYPE[:\s]*([^\n]+)" *)
Definition pat_claim_type : regex :=
  seqs [lit "CLAIM TYPE"; star colon_or_space; Group (plus not_newline)].

(** r"ATTACHMENT" *)
Definition pat_attachment : regex := lit "ATTACHMENT".

(** r"INITIAL ESTIMATE[:\s]*([$]?\s*[0-9,\.]+)" *)
Definition pat_initial_estimate : regex :=
  seqs [lit "INITIAL ESTIMATE"; star colon_or_space; Group amount].

(** r"[^\d\.]", what [parse_amount] deletes *)
Definition not_numeric : cset := NotIn [Digit; Lit "."].

(** *** [first_group]

    [m.group(1).strip() if m else None]; were group 1 [None] in a match,
    [.strip()] would raise [AttributeError]. *)
Definition first_group (pattern : regex) (text : string) (fl : flags)
  : result (option string) :=
  match search fl pattern text with
  | Some m =>
      match group1 m with
      | Some g => Ok (Some (Py.strip g))
      | None => Raise AttributeError
      end
  | None => Ok None
  end.

(** *** [extract_fields] *)
Definition extract_fields (text : string) : result fields :=
  let f : fields := ∅ in
  let* v := first_group pat_policy_number text I_S in
  let f := <["policy_number" := v]> f in
  let* v := first_group pat_policyholder_name text I_S in
  let f := <["policyholder_name" := v]> f in
  let* v := first_group pat_effective_dates text I_S in
  let f := <["effective_dates" := v]> f in
  let* v := first_group pat_incident_date text I_S in
  let f := <["incident_date" := v]> f in
  let* v := first_group pat_incident_time text I_S in
  let f := <["incident_time" := v]> f in
  let* v := first_group pat_incident_location text I_S in
  let f := <["incident_location" := v]> f in
  let* v := first_group pat_incident_description text I_S in
  let f := <["incident_description" := v]> f in
  let* v := first_group pat_claimant text I_S in
  let f := <["claimant" := v]> f in
  let* v := first_group pat_third_parties text I_S in
  let f := <["third_parties" := v]> f in
  let* v := first_group pat_contact_details text I_S in
  let f := <["contact_details" := v]> f in
  let f := <["asset_type" := Some "Vehicle"]> f in
  let* v := first_group pat_asset_id text I_S in
  let f := <["asset_id" := v]> f in
  let* v := first_group pat_estimated_damage text I_S in
  let f := <["estimated_damage" := v]> f in
  let* v := first_group pat_claim_type text I_S in
  let f := <["claim_type" := v]> f in
  let f := <["attachments" :=
               Some (if search I pat_attachment text is Some _ then "Yes" else "Unknown")]> f in
  let* v := first_group pat_initial_estimate text I_S in
  let f := <["initial_estimate" := v]> f in
  Ok f.

(** *** [find_missing_fields] *)

(** [not f.get(k) or str(f[k]).strip() == ""] *)
Definition is_missing (f : fields) (k : string) : result bool :=
  if negb (Py.truthy (get f k)) then Ok true
  else let* v := getitem f k in Ok (String.eqb (Py.strip (str v)) "").

(** [[k for k in l if p(k)]] *)
Fixpoint comprehension {A : Type} (p : A -> result bool) (l : list A)
  : result (list A) :=
  match l with
  | [] => Ok []
  | k :: l' =>
      let* b := p k in
      let* rest := comprehension p l' in
      Ok (if b then k :: rest else rest)
  end.

Definition find_missing_fields (f : fields) : result (list string) :=
  comprehension (is_missing f) MANDATORY_FIELDS.

(** *** [parse_amount] *)
Definition parse_amount (s : option string) : result Float.float :=
  match s with
  | None | Some EmptyString => Ok Float.zero
  | Some s =>
      let n := sub_chars no_flags not_numeric "" s in
      match (if Py.truthy (Some n) then Float.of_str n else Ok Float.zero) with
      | Raise ValueError => Ok Float.zero
      | r => r
      end
  end.

(** *** [route_claim] *)
Definition route_claim (f : fields) (missing : list string)
  : result (string * string) :=
  let desc := Py.lower (or_str (get f "incident_description") "") in
  let ctype := Py.lower (or_str (get f "claim_type") "") in
  let* est := parse_amount (Py.or_else (get f "estimated_damage") (get f "initial_estimate")) in
  match missing with
  | _ :: _ =>
      Ok ("Manual review", "Missing mandatory fields: " +:+ Py.join ", " missing)
  | [] =>
      if Py.any (fun w => Py.contains w desc) ["fraud"; "inconsistent"; "staged"] then
        Ok ("Investigation Flag", "Description contains potential fraud indicators.")
      else if Py.contains "injury" ctype then
        Ok ("Specialist Queue", "Claim type indicates injury.")
      else if Float.truthy est && Float.ltb est (Float.of_int 25000) then
        Ok ("Fast-track", "Estimated damage " +:+ Float.repr est +:+ " < 25000.")
      else
        Ok ("Manual review", "No specific routing rule matched.")
  end.

(** *** [pdf_to_text] and [process_fnol] *)

Record claim_result : Type := ClaimResult {
  extractedFields : fields;
  missingFields : list string;
  recommendedRoute : string;
  reasoning : string
}.

Section Pipeline.
(** [pdfplumber]: the text of each page of the document at a path,
    [None] for a page without text; opening the document may raise. *)
Variable pdf_pages : string -> result (list (option string)).

Definition pdf_to_text (path : string) : result string :=
  let* pages := pdf_pages path in
  Ok (Py.join (String LF "") (map (fun p => or_str p "") pages)).

Definition process_fnol (path : string) : result claim_result :=
  let* text := pdf_to_text path in
  let* fs := extract_fields text in
  let* missing := find_missing_fields fs in
  let* r := route_claim fs missing in
  Ok (ClaimResult fs missing (fst r) (snd r)).
End Pipeline.

(** ** Vocabulary of the statements *)

(** What the spec calls stripping: the characters that are a decimal digit
    or the decimal point, in their order. *)
Fixpoint keep_numeric (s : string) : string :=
  match s with
  | EmptyString => EmptyString
  | String a s' =>
      if Py.isdecimal a || Ascii.eqb a "." then String a (keep_numeric s')
      else keep_numeric s'
  end.

(** Only digits and points in [s] *)
Fixpoint numeric_only (s : string) : bool :=
  match s with
  | EmptyString => true
  | String a s' => (Py.isdecimal a || Ascii.eqb a ".") && numeric_only s'
  end.

(** The fields [extract_fields] fills by a pattern, with their patterns *)
Definition PATTERNS : list (string * regex) := [
  ("policy_number", pat_policy_number);
  ("policyholder_name", pat_policyholder_name);
  ("effective_dates", pat_effective_dates);
  ("incident_date", pat_incident_date);
  ("incident_time", pat_incident_time);
  ("incident_location", pat_incident_location);
  ("incident_description", pat_incident_description);
  ("claimant", pat_claimant);
  ("third_parties", pat_third_parties);
  ("contact_details", pat_contact_details);
  ("asset_id", pat_asset_id);
  ("estimated_damage", pat_estimated_damage);
  ("claim_type", pat_claim_type);
  ("initial_estimate", pat_initial_estimate)
].

(** A value is missing when it is absent or a string that is empty once
    trimmed. *)
Definition absent_or_blank (v : option string) : Prop :=
  match v with
  | None => True
  | Some s => Py.strip s = EmptyString
  end.

#[global] Instance absent_or_blank_dec (v : option string) : Decision (absent_or_blank v).
Proof. destruct v as [s|]; simpl; [apply String.eq_dec | left; exact Logic.I]. Defined.

(** The description and the claim type as [route_claim] reads them. *)
Definition description (f : fields) : string :=
  Py.lower (or_str (get f "incident_description") EmptyString).

Definition claim_type (f : fields) : string :=
  Py.lower (or_str (get f "claim_type") EmptyString).

Definition fraud_keyword (f : fields) : bool :=
  Py.contains "fraud" (description f) || Py.contains "inconsistent" (description f)
  || Py.contains "staged" (description f).

Definition injury (f : fields) : bool := Py.contains "injury" (claim_type f).

(** The floats the statements name, [1234.56] and [5000.0], as binary64
    numbers [m * 2^e]. *)
Definition float_1234_56 : Float.float := S754_finite false 5429652300748554 (-42).
Definition float_5000 : Float.float := S754_finite false 5497558138880000 (-40).

(** [|m * 2^e - n / d| <= 2^e / 2] for [e < 0]: the float is within half a
    unit in the last place of the fraction. *)
Definition nearest_to (m : positive) (e : Z) (n d : Z) : Prop :=
  2 * Z.abs (Zpos m * d - n * 2 ^ (- e)) <= d.

(** A field map with a fraud keyword, an injury claim type and a small
    estimate at once. *)
Definition staged_injury_claim : fields :=
  <["incident_description" := Some "Witness says the collision was STAGED"]>
  (<["claim_type" := Some "Bodily Injury"]>
  (<["estimated_damage" := Some "$5,000"]> ∅)).

(** A field map with an unparsable estimate and an initial estimate. *)
Definition unparsable_estimate_claim : fields :=
  <["incident_description" := Some "Rear-ended at a red light"]>
  (<["claim_type" := Some "Collision"]>
  (<["estimated_damage" := Some "N/A"]>
  (<["initial_estimate" := Some "$5,000"]> ∅))).

(** A field map without an estimate but with an initial estimate. *)
Definition fallback_claim : fields :=
  <["incident_description" := Some "Rear-ended at a red light"]>
  (<["claim_type" := Some "Collision"]>
  (<["estimated_damage" := None]>
  (<["initial_estimate" := Some "$5,000"]> ∅))).

(** A text from its lines *)
Definition doc (lines : list string) : string := Py.join (String LF EmptyString) lines.

(** A notice with every mandatory field but the estimate amount, and an
    initial estimate of $5,000. *)
Definition notice_without_estimate : string := doc [
  "POLICY NUMBER: AB-12345";
  "NAME OF INSURED (First, Middle, Last)";
  "John Smith";
  "Effective Dates: 01/01/2024 to 01/01/2025";
  "DATE OF LOSS: 03/15/2024";
  "TIME: 10:30 AM";
  "LOCATION OF LOSS";
  "12 Main Street";
  "DESCRIPTION OF ACCIDENT";
  "Rear-ended at a red light";
  "CLAIMANT: John Smith";
  "THIRD PARTY: Jane Roe";
  "PHONE # (A/C, No)";
  "555-0100";
  "VIN: 1HGCM82633A004352";
  "CLAIM TYPE: Collision";
  "ATTACHMENT: photos";
  "INITIAL ESTIMATE: $5,000"
].

(** What the statements read off a claim result: the two estimates, whether
    a fraud keyword or an injury was found, the missing list, the route and
    its justification. *)
Definition outcome (r : result claim_result)
  : result (option string * option string * bool * bool
            * list string * string * string) :=
  let* c := r in
  Ok (get (extractedFields c) "estimated_damage",
      get (extractedFields c) "initial_estimate",
      fraud_keyword (extractedFields c), injury (extractedFields c),
      missingFields c, recommendedRoute c, reasoning c).

(** A notice with two labels whose value is on the line below. *)
Definition notice_two_labels : string := doc [
  "NAME OF INSURED (First, Middle, Last)";
  "John Smith";
  "LOCATION OF LOSS";
  "12 Main Street";
  "POLICY NUMBER: AB-12345"
].

(** A description followed by a line that starts with a lower-case word
    and a colon. *)
Definition notice_lowercase_line : string := doc [
  "DESCRIPTION OF ACCIDENT";
  "Rear-ended at a red light";
  "notes: driver was alone";
  "REMARKS: none"
].

(** The pattern of a label whose value is on the line below *)
Definition label_then_below (label : string) : regex :=
  seqs [lit label; star not_newline; chr LF; Group (star Dot)].

(** The label stands nowhere in [pre ++ s] before [s]. *)
Definition first_at (label pre s : string) : Prop :=
  forall p q, pre = p +:+ q -> q <> EmptyString ->
              skip_literal I_S label (q +:+ s) = None.

(** The label stands nowhere in [text]. *)
Definition nowhere (label text : string) : Prop :=
  forall p q, text = p +:+ q -> skip_literal I_S label q = None.

(** A character of the heading set ["[A-Z ]"] under [re.I]: an ASCII
    letter of either case, or a blank. *)
Definition letter_or_blank (a : ascii) : bool :=
  Py.between 65 90 a || Py.between 97 122 a || Ascii.eqb a " ".

(** After [n] or more heading characters and a colon: what follows the
    colon. *)
Fixpoint skip_heading (n : nat) (s : string) : option string :=
  match s with
  | EmptyString => None
  | String a s' =>
      if letter_or_blank a then skip_heading (Nat.pred n) s'
      else if Nat.eqb n 0 && Ascii.eqb a ":" then Some s' else None
  end.

(** What ends the description: the end of the text, or a line feed, five
    or more heading characters and a colon.  [after_terminator] is what
    follows it. *)
Definition after_terminator (s : string) : option string :=
  match s with
  | EmptyString => Some EmptyString
  | String a s' => if Ascii.eqb a LF then skip_heading 5 s' else None
  end.

Definition terminator (s : string) : bool :=
  match after_terminator s with
  | Some _ => true
  | None => false
  end.

(** The first place in [c ++ rem], from its start on, where [stop] holds
    is [rem]. *)
Fixpoint first_stop (stop : string -> bool) (c rem : string) : bool :=
  match c with
  | EmptyString => stop rem
  | String a c' => negb (stop (c +:+ rem)) && first_stop stop c' rem
  end.

(** [cap] is not empty, a terminator follows it, and none follows a
    shorter non-empty prefix of it. *)
Definition stops_first (cap rem : string) : bool :=
  match cap with
  | EmptyString => false
  | String _ c' => first_stop terminator c' rem
  end.

(** The heading set and the end of the description pattern *)
Definition heading_chars : cset := In [Range "A" "Z"; Lit " "].
Definition description_end : regex :=
  Alt (seqs [chr LF; at_least 5 heading_chars; chr ":"]) AtEnd.

(** ** Vocabulary of the further properties *)

(** The four destinations *)
Definition DESTINATIONS : list string :=
  ["Fast-track"; "Manual review"; "Investigation Flag"; "Specialist Queue"].

(** The fields [route_claim] reads *)
Definition ROUTING_FIELDS : list string :=
  ["incident_description"; "claim_type"; "estimated_damage"; "initial_estimate"].

(** A float that is neither negative nor a NaN *)
Definition nonnegative (x : Float.float) : Prop :=
  match x with
  | S754_zero false | S754_infinity false | S754_finite false _ _ => True
  | _ => False
  end.

(** How many decimal points [s] has *)
Fixpoint points (s : string) : nat :=
  match s with
  | EmptyString => O
  | String a s' => ((if Ascii.eqb a "." then 1 else 0) + points s')%nat
  end.

(** A whole amount of dollars as a notice has it: ["$"] and the decimal
    digits of [n] *)
Definition dollars (n : N) : string :=
  "$" +:+ NilZero.string_of_uint (N.to_uint n).

(** Whether the amount test of [route_claim] passes on the estimate [s] *)
Definition small_amount (s : string) : bool :=
  match parse_amount (Some s) with
  | Ok est => Float.truthy est && Float.ltb est (Float.of_int 25000)
  | Raise _ => false
  end.

(** A field map with an injury claim type and a small estimate. *)
Definition injury_claim : fields :=
  <["incident_description" := Some "Rear-ended at a red light"]>
  (<["claim_type" := Some "Bodily Injury"]>
  (<["estimated_damage" := Some "$5,000"]> ∅)).

(** A field map with an estimate of two decimal points. *)
Definition two_points_claim : fields :=
  <["incident_description" := Some "Rear-ended at a red light"]>
  (<["claim_type" := Some "Collision"]>
  (<["estimated_damage" := Some "$1.000.000"]> ∅)).

(** The [len] numbers from [start] on *)
Fixpoint nrange (len : nat) (start : N) : list N :=
  match len with
  | O => []
  | S len' => start :: nrange len' (N.succ start)
  end.

(** The literal each pattern of [extract_fields] starts with *)
Definition LABELS : list (string * string) := [
  ("policy_number", "POLICY");
  ("policyholder_name", "NAME OF INSURED");
  ("effective_dates", "Effective");
  ("incident_date", "DATE OF LOSS");
  ("incident_time", "TIME");
  ("incident_location", "LOCATION OF LOSS");
  ("incident_description", "DESCRIPTION OF ACCIDENT");
  ("claimant", "CLAIMANT");
  ("third_parties", "THIRD PART");
  ("contact_details", "PHONE");
  ("asset_id", "V");
  ("estimated_damage", "ESTIMATE AMOUNT");
  ("claim_type", "CLAIM TYPE");
  ("initial_estimate", "INITIAL ESTIMATE")
].

(** [label] stands somewhere in [text], in either case *)
Definition mentions (label text : string) : bool :=
  Py.contains (Py.lower label) (Py.lower text).

(** Every mandatory field of [f] holds a string that is not blank. *)
Definition complete (f : fields) : Prop :=
  forall k, k ∈ MANDATORY_FIELDS ->
            exists v, get f k = Some v /\ Py.strip v <> EmptyString.

(** [s] does not start with a blank character. *)
Definition starts_clean (s : string) : bool :=
  match s with
  | EmptyString => true
  | String a _ => negb (Py.isspace a)
  end.

(** *** What a match looks like

    [run fl r s g s' g']: the pattern [r] can take a prefix of [s] and leave
    [s'], turning group 1 from [g] into [g']. *)
Fixpoint run (fl : flags) (r : regex) (s : string) (g : option string)
         (s' : string) (g' : option string) : Prop :=
  match r with
  | Empty => s' = s /\ g' = g
  | Char cs => exists a, s = String a s' /\ cset_matches fl cs a = true /\ g' = g
  | Seq r1 r2 => exists s1 g1, run fl r1 s g s1 g1 /\ run fl r2 s1 g1 s' g'
  | Alt r1 r2 => run fl r1 s g s' g' \/ run fl r2 s g s' g'
  | Repeat _ lo hi cs =>
      exists w, s = w +:+ s' /\ all_in fl cs w = true /\
                (lo <= String.length w)%nat /\
                match hi with
                | Some h => (String.length w <= h)%nat
                | None => True
                end /\
                g' = g
  | Optional r1 => run fl r1 s g s' g' \/ (s' = s /\ g' = g)
  | Group r1 => exists g1, run fl r1 s g s' g1 /\ g' = Some (consumed s s')
  | AtEnd => s = EmptyString /\ s' = EmptyString /\ g' = g
  end.

(** Every character of [s] satisfies [p]. *)
Fixpoint all_chars (p : ascii -> bool) (s : string) : bool :=
  match s with
  | EmptyString => true
  | String a s' => p a && all_chars p s'
  end.

Definition ascii_letter (a : ascii) : bool :=
  Py.between 65 90 a || Py.between 97 122 a.

(** A letter of either case, a digit or a hyphen *)
Definition policy_char (a : ascii) : bool :=
  ascii_letter a || Py.isdecimal a || Ascii.eqb a "-".

(** A digit, or a letter of either case other than I, O and Q *)
Definition vin_char (a : ascii) : bool :=
  Py.isdecimal a ||
  (ascii_letter a &&
   negb (Ascii.eqb (Py.tolower a) "i" || Ascii.eqb (Py.tolower a) "o"
         || Ascii.eqb (Py.tolower a) "q")).

(** A dollar sign, a blank character, a digit, a comma or a point *)
Definition amount_char (a : ascii) : bool :=
  Ascii.eqb a "$" || Py.isspace a || Py.isdecimal a || Ascii.eqb a "," || Ascii.eqb a ".".

(** Two digits, a slash, two digits, a slash, four digits *)
Definition is_date (v : string) : bool :=
  match list_ascii_of_string v with
  | [a; b; s1; c; d; s2; e; f; g; h] =>
      all_chars Py.isdecimal (string_of_list_ascii [a; b; c; d; e; f; g; h])
      && Ascii.eqb s1 "/" && Ascii.eqb s2 "/"
  | _ => false
  end.

(** The notice of [notice_without_estimate] with an estimate amount *)
Definition notice_with_estimate : string :=
  notice_without_estimate +:+ doc [""; "ESTIMATE AMOUNT: $12,000.00"].

(** The dict [extract_fields] returns on [text] *)
Definition extracted (text : string) : fields :=
  match extract_fields text with
  | Ok f => f
  | Raise _ => ∅
  end.

(** What [process_fnol] returns on the two notices *)
Definition result_without_estimate : claim_result :=
  ClaimResult (extracted notice_without_estimate) ["estimated_damage"]
    "Manual review" "Missing mandatory fields: estimated_damage".

Definition result_with_estimate : claim_result :=
  ClaimResult (extracted notice_with_estimate) []
    "Fast-track" "Estimated damage 12000.0 < 25000.".

(** [s] is made of line feeds only. *)
Definition line_feeds (s : string) : bool := all_chars (fun a => Ascii.eqb a LF) s.

(** The 14 fields that come from a pattern, in catalog order *)
Definition PATTERN_FIELDS : list string :=
  ["policy_number"; "policyholder_name"; "effective_dates"; "incident_date";
   "incident_time"; "incident_location"; "incident_description"; "claimant";
   "third_parties"; "contact_details"; "asset_id"; "estimated_damage";
   "claim_type"; "initial_estimate"].

(** * Properties *)

(** [x ∈ l] for a list and an element that are both given *)
Ltac in_list := repeat first [apply list_elem_of_here | apply list_elem_of_further].

(** ** Strings *)

(** [w in s] holds exactly when [s] is [pre ++ w ++ post]. *)
Lemma prefix_spec (w s : string) :
  String.prefix w s = true <-> exists post, s = w +:+ post.
Proof.
  revert s. induction w as [|c w IH]; intros s.
  - split; [intros _; exists s; reflexivity | intros _; by destruct s].
  - destruct s as [|a s]; simpl.
    + split; [discriminate | intros [post H]; discriminate].
    + destruct (ascii_dec c a) as [->|Hne].
      * rewrite IH. split; intros [post H]; exists post; [by rewrite H | by injection H].
      * split; [discriminate | intros [post H]; injection H; congruence].
Qed.

Lemma contains_cons (w : string) (a : ascii) (s : string) :
  Py.contains w (String a s) = String.prefix w (String a s) || Py.contains w s.
Proof. reflexivity. Qed.

Lemma contains_spec (w s : string) :
  Py.contains w s = true <-> exists pre post, s = pre +:+ w +:+ post.
Proof.
  induction s as [|a s IH].
  - change (Py.contains w EmptyString) with (String.prefix w EmptyString || false).
    rewrite orb_false_r, prefix_spec. split.
    + intros [post H]. exists EmptyString, post. exact H.
    + intros [[|b pre] [post H]]; [by exists post | discriminate].
  - rewrite contains_cons, orb_true_iff, prefix_spec, IH. split.
    + intros [[post H] | (pre & post & H)].
      * exists EmptyString, post. exact H.
      * exists (String a pre), post. simpl. by rewrite H.
    + intros ([|b pre] & post & H); simpl in H.
      * left. by exists post.
      * right. exists pre, post. by injection H.
Qed.

(** ** The amount parser *)

Lemma scan_raises (s : string) (st : Float.numeral) (e : exn) :
  Float.scan s st = Raise e -> e = ValueError.
Proof.
  revert st. induction s as [|c s IH]; intros st; simpl; [discriminate|].
  destruct (Py.isdecimal c); [apply IH|].
  destruct (Ascii.eqb c "."); [|congruence].
  destruct (Float.seen_point st); [congruence | apply IH].
Qed.

Lemma of_str_raises (n : string) (e : exn) :
  Float.of_str n = Raise e -> e = ValueError.
Proof.
  unfold Float.of_str. destruct (Float.scan n _) as [st|e'] eqn:E; simpl.
  - destruct (Float.seen_digit st); congruence.
  - intros [= <-]. eapply scan_raises, E.
Qed.

(** [parse_amount] returns a number whatever it is given. *)
Lemma parse_amount_total (v : option string) : exists x, parse_amount v = Ok x.
Proof.
  destruct v as [[|c s]|]; [by eexists| |by eexists].
  unfold parse_amount.
  generalize (sub_chars no_flags not_numeric EmptyString (String c s)) as n.
  intros [|a n]; cbv zeta; [by eexists|].
  simpl Py.truthy. cbv iota.
  destruct (Float.of_str (String a n)) as [x|e] eqn:E; [by eexists|].
  apply of_str_raises in E as ->. by eexists.
Qed.

Lemma not_numeric_matches (a : ascii) :
  cset_matches no_flags not_numeric a = negb (Py.isdecimal a || Ascii.eqb a ".").
Proof.
  unfold not_numeric. cbn [cset_matches existsb item_matches].
  unfold same_char. cbn [ignorecase no_flags].
  by rewrite orb_false_r, (Ascii.eqb_sym "." a).
Qed.

Lemma sub_chars_cons (fl : flags) (cs : cset) (repl : string) (a : ascii) (s : string) :
  sub_chars fl cs repl (String a s) =
    if cset_matches fl cs a then repl +:+ sub_chars fl cs repl s
    else String a (sub_chars fl cs repl s).
Proof. reflexivity. Qed.

Lemma sub_chars_keep_numeric (s : string) :
  sub_chars no_flags not_numeric EmptyString s = keep_numeric s.
Proof.
  induction s as [|a s IH]; [reflexivity|].
  rewrite sub_chars_cons, not_numeric_matches, IH. cbn [keep_numeric].
  by destruct (Py.isdecimal a || Ascii.eqb a ".").
Qed.

Lemma keep_numeric_idem (s : string) : keep_numeric (keep_numeric s) = keep_numeric s.
Proof.
  induction s as [|a s IH]; simpl; [reflexivity|].
  destruct (Py.isdecimal a || Ascii.eqb a ".") eqn:E; simpl; [|exact IH].
  by rewrite E, IH.
Qed.

(** What [parse_amount] hands to [float] is over the alphabet [Float.of_str]
    reads. *)
Lemma keep_numeric_numeric_only (s : string) : numeric_only (keep_numeric s) = true.
Proof.
  induction s as [|a s IH]; [reflexivity|]. cbn [keep_numeric].
  destruct (Py.isdecimal a || Ascii.eqb a ".") eqn:E; [|exact IH].
  cbn [numeric_only]. by rewrite E, IH.
Qed.

(** [parse_amount] in terms of the stripped string. *)
Lemma parse_amount_stripped (s : string) :
  parse_amount (Some s) =
    match keep_numeric s with
    | EmptyString => Ok Float.zero
    | n => match Float.of_str n with
           | Ok x => Ok x
           | Raise _ => Ok Float.zero
           end
    end.
Proof.
  destruct s as [|c s]; [reflexivity|].
  unfold parse_amount. rewrite sub_chars_keep_numeric.
  destruct (keep_numeric (String c s)) as [|a n] eqn:E; [reflexivity|].
  simpl Py.truthy. cbv iota.
  destruct (Float.of_str (String a n)) as [x|e] eqn:E'; [reflexivity|].
  by apply of_str_raises in E' as ->.
Qed.

(** C3. [parse_amount] is total and never raises; it gives 0.0 for an
    absent input, for the empty string and for ["abc"], and 1234.56 (the
    binary64 number nearest to it, which prints as 1234.56) for
    ["$1,234.56"]; in general its result depends only on the digits and
    points of the input, in their order: it is 0.0 when none is left or when
    [float] rejects what is left, and the number [float] reads otherwise. *)
Theorem parse_amount_total_values :
  (forall v, exists x, parse_amount v = Ok x) /\
  parse_amount None = Ok Float.zero /\
  (parse_amount (Some "$1,234.56") = Ok float_1234_56 /\
   valid_binary Float.prec Float.emax float_1234_56 = true /\
   nearest_to 5429652300748554 (-42) 123456 100 /\
   Float.repr float_1234_56 = "1234.56") /\
  parse_amount (Some "abc") = Ok Float.zero /\
  parse_amount (Some EmptyString) = Ok Float.zero /\
  (forall s, parse_amount (Some s) = parse_amount (Some (keep_numeric s))) /\
  (forall s, keep_numeric s = EmptyString -> parse_amount (Some s) = Ok Float.zero) /\
  (forall s e, Float.of_str (keep_numeric s) = Raise e ->
               parse_amount (Some s) = Ok Float.zero) /\
  (forall s x, keep_numeric s <> EmptyString -> Float.of_str (keep_numeric s) = Ok x ->
               parse_amount (Some s) = Ok x).
Proof.
  split; [exact parse_amount_total|].
  split; [reflexivity|].
  split.
  { split; [vm_compute; reflexivity|]. split; [vm_compute; reflexivity|].
    split; [|vm_compute; reflexivity]. unfold nearest_to. vm_compute. discriminate. }
  split; [vm_compute; reflexivity|].
  split; [reflexivity|].
  split; [|split; [|split]].
  - intros s. by rewrite !parse_amount_stripped, keep_numeric_idem.
  - intros s H. by rewrite parse_amount_stripped, H.
  - intros s e H. rewrite parse_amount_stripped.
    destruct (keep_numeric s) as [|a n] eqn:K; [reflexivity|]. by rewrite H.
  - intros s x Hne H. rewrite parse_amount_stripped.
    destruct (keep_numeric s) as [|a n] eqn:K; [done|]. by rewrite H.
Qed.

(** ** The completeness checker *)

Lemma is_missing_spec (f : fields) (k : string) :
  is_missing f k = Ok (bool_decide (absent_or_blank (get f k))).
Proof.
  unfold is_missing, get, getitem.
  destruct (f !! k) as [[[|c s]|]|]; try reflexivity.
  cbn [Py.truthy negb bind str]. f_equal.
  destruct (String.eqb_spec (Py.strip (String c s)) EmptyString) as [E|E].
  - symmetry. by apply bool_decide_eq_true.
  - symmetry. by apply bool_decide_eq_false.
Qed.

Lemma comprehension_filter {A : Type} (p : A -> result bool) (P : A -> Prop)
      `{!forall a, Decision (P a)} (l : list A) :
  (forall a, p a = Ok (bool_decide (P a))) ->
  comprehension p l = Ok (filter P l).
Proof.
  intros Hp. induction l as [|a l IH]; [reflexivity|].
  cbn [comprehension]. rewrite Hp, IH. cbn [bind].
  rewrite filter_cons. by destruct (decide (P a)) as [HP|HP];
    [rewrite bool_decide_eq_true_2 | rewrite bool_decide_eq_false_2].
Qed.

(** The comprehension of [find_missing_fields] is a filter of the catalog. *)
Lemma find_missing_fields_filter (f : fields) :
  find_missing_fields f =
    Ok (filter (fun k => absent_or_blank (get f k)) MANDATORY_FIELDS).
Proof.
  apply (comprehension_filter (is_missing f) (fun k => absent_or_blank (get f k))).
  apply is_missing_spec.
Qed.

Lemma find_missing_fields_elem (f : fields) (missing : list string) (k : string) :
  find_missing_fields f = Ok missing ->
  k ∈ missing <-> k ∈ MANDATORY_FIELDS /\ absent_or_blank (get f k).
Proof.
  rewrite find_missing_fields_filter. intros [= <-].
  rewrite list_elem_of_filter. tauto.
Qed.

Lemma find_missing_fields_sublist (f : fields) (missing : list string) :
  find_missing_fields f = Ok missing -> sublist missing MANDATORY_FIELDS.
Proof.
  rewrite find_missing_fields_filter. intros [= <-]. apply sublist_filter.
Qed.

(** C5. [find_missing_fields] returns exactly the catalog keys whose value
    is absent or empty once trimmed, in catalog order, and nothing else. *)
Theorem find_missing_fields_exact (f : fields) :
  exists missing,
    find_missing_fields f = Ok missing /\
    missing = filter (fun k => absent_or_blank (get f k)) MANDATORY_FIELDS /\
    sublist missing MANDATORY_FIELDS /\
    (forall k, k ∈ missing <-> k ∈ MANDATORY_FIELDS /\ absent_or_blank (get f k)).
Proof.
  pose proof (find_missing_fields_filter f) as E.
  eexists. split; [exact E|]. split; [reflexivity|]. split.
  - by apply (find_missing_fields_sublist f).
  - intros k. by apply (find_missing_fields_elem f).
Qed.

(** ** The router *)

Lemma route_claim_est (f : fields) (missing : list string) :
  exists est,
    parse_amount (Py.or_else (get f "estimated_damage") (get f "initial_estimate")) = Ok est /\
    route_claim f missing =
      match missing with
      | _ :: _ =>
          Ok ("Manual review", "Missing mandatory fields: " +:+ Py.join ", " missing)
      | [] =>
          if fraud_keyword f then
            Ok ("Investigation Flag", "Description contains potential fraud indicators.")
          else if injury f then
            Ok ("Specialist Queue", "Claim type indicates injury.")
          else if Float.truthy est && Float.ltb est (Float.of_int 25000) then
            Ok ("Fast-track", "Estimated damage " +:+ Float.repr est +:+ " < 25000.")
          else
            Ok ("Manual review", "No specific routing rule matched.")
      end.
Proof.
  destruct (parse_amount_total
              (Py.or_else (get f "estimated_damage") (get f "initial_estimate")))
    as [est E].
  exists est. split; [exact E|].
  unfold route_claim. rewrite E. cbn [bind].
  destruct missing; [|reflexivity].
  unfold fraud_keyword, injury, description, claim_type, Py.any.
  cbn [existsb]. by rewrite orb_false_r, orb_assoc.
Qed.

(** The missing-fields rule comes first. *)
Lemma route_claim_missing (f : fields) (missing : list string) :
  missing <> [] ->
  route_claim f missing =
    Ok ("Manual review", "Missing mandatory fields: " +:+ Py.join ", " missing).
Proof.
  intros Hne. destruct (route_claim_est f missing) as (est & _ & ->).
  by destruct missing.
Qed.

(** C1. With a non-empty missing list [route_claim] answers "Manual review"
    and lists the missing names, joined by a comma and a blank, in the order
    of the list, whatever the fields hold; the list the completeness checker
    builds is in catalog order. *)
Theorem route_claim_missing_first (f : fields) (missing : list string) :
  missing <> [] ->
  route_claim f missing =
    Ok ("Manual review", "Missing mandatory fields: " +:+ Py.join ", " missing) /\
  (find_missing_fields f = Ok missing -> sublist missing MANDATORY_FIELDS).
Proof.
  intros Hne. split.
  - by apply route_claim_missing.
  - apply find_missing_fields_sublist.
Qed.

Lemma route_claim_missing_first_witness :
  route_claim staged_injury_claim ["policy_number"; "asset_id"] =
    Ok ("Manual review", "Missing mandatory fields: policy_number, asset_id").
Proof.
  exact (proj1 (route_claim_missing_first staged_injury_claim
                  ["policy_number"; "asset_id"] ltac:(discriminate))).
Defined.

(** C2. With an empty missing list, a description that contains "fraud",
    "inconsistent" or "staged" once lower-cased sends the claim to
    "Investigation Flag", whatever the claim type and the estimate are. *)
Theorem fraud_check_precedes (f : fields) :
  fraud_keyword f = true ->
  route_claim f [] =
    Ok ("Investigation Flag", "Description contains potential fraud indicators.").
Proof.
  intros H. destruct (route_claim_est f []) as (est & _ & ->). by rewrite H.
Qed.

Lemma fraud_check_precedes_witness :
  (fraud_keyword staged_injury_claim = true /\
   injury staged_injury_claim = true /\
   parse_amount (get staged_injury_claim "estimated_damage") = Ok float_5000) /\
  route_claim staged_injury_claim [] =
    Ok ("Investigation Flag", "Description contains potential fraud indicators.").
Proof.
  split.
  - vm_compute. repeat split; reflexivity.
  - apply (fraud_check_precedes staged_injury_claim). vm_compute. reflexivity.
Defined.

(** C6. With an empty missing list, no fraud keyword and no injury, an
    estimated_damage of "N/A" next to an initial_estimate of "$5,000" does
    not fall back: the amount is that of "N/A", which is 0.0 and false, and
    the claim goes to "Manual review". *)
Theorem unparsable_estimate_no_fallback (f : fields) :
  get f "estimated_damage" = Some "N/A" ->
  get f "initial_estimate" = Some "$5,000" ->
  fraud_keyword f = false ->
  injury f = false ->
  Py.or_else (get f "estimated_damage") (get f "initial_estimate") = Some "N/A" /\
  parse_amount (Some "N/A") = Ok Float.zero /\
  Float.truthy Float.zero = false /\
  route_claim f [] = Ok ("Manual review", "No specific routing rule matched.").
Proof.
  intros He Hi Hf Hj.
  split; [by rewrite He|]. split; [reflexivity|]. split; [reflexivity|].
  destruct (route_claim_est f []) as (est & E & ->).
  rewrite He in E. cbn in E. injection E as <-.
  by rewrite Hf, Hj.
Qed.

Lemma unparsable_estimate_no_fallback_witness :
  parse_amount (get unparsable_estimate_claim "initial_estimate") = Ok float_5000 /\
  route_claim unparsable_estimate_claim [] =
    Ok ("Manual review", "No specific routing rule matched.").
Proof.
  split; [vm_compute; reflexivity|].
  apply (unparsable_estimate_no_fallback unparsable_estimate_claim);
    vm_compute; reflexivity.
Defined.

(** C7, as the code has it. When estimated_damage is absent and
    initial_estimate is "$5,000" (no fraud keyword, no injury),
    [route_claim] called with an empty missing list answers "Fast-track"
    with the fallback value 5000.0; the completeness checker, however, lists
    estimated_damage as missing, so that with its list the answer is
    "Manual review". *)
Theorem fallback_needs_empty_missing_list (f : fields) :
  get f "estimated_damage" = None ->
  get f "initial_estimate" = Some "$5,000" ->
  fraud_keyword f = false ->
  injury f = false ->
  route_claim f [] = Ok ("Fast-track", "Estimated damage 5000.0 < 25000.") /\
  exists missing,
    find_missing_fields f = Ok missing /\
    "estimated_damage" ∈ missing /\
    route_claim f missing =
      Ok ("Manual review", "Missing mandatory fields: " +:+ Py.join ", " missing).
Proof.
  intros He Hi Hf Hj. split.
  - destruct (route_claim_est f []) as (est & E & ->).
    rewrite He, Hi in E. vm_compute in E. injection E as <-.
    rewrite Hf, Hj. vm_compute. reflexivity.
  - pose proof (find_missing_fields_filter f) as E.
    eexists. split; [exact E|].
    assert (Hm : "estimated_damage" ∈
                   filter (fun k => absent_or_blank (get f k)) MANDATORY_FIELDS).
    { apply (find_missing_fields_elem f _ _ E). split; [|by rewrite He].
      unfold MANDATORY_FIELDS. in_list. }
    split; [exact Hm|].
    apply route_claim_missing. intros Hnil. rewrite Hnil in Hm.
    by apply elem_of_nil in Hm.
Qed.

Lemma fallback_needs_empty_missing_list_witness :
  route_claim fallback_claim [] = Ok ("Fast-track", "Estimated damage 5000.0 < 25000.").
Proof.
  exact (proj1 (fallback_needs_empty_missing_list fallback_claim
                  eq_refl eq_refl eq_refl eq_refl)).
Defined.

(** C7 fails in the pipeline: on a notice that has every mandatory field
    but the estimate amount, an initial estimate of "$5,000", no fraud
    keyword and no injury, [process_fnol] answers "Manual review". *)
Lemma pipeline_fallback_counterexample :
  outcome (process_fnol (fun _ => Ok [Some notice_without_estimate]) "notice.pdf") =
    Ok (None, Some "$5,000", false, false, ["estimated_damage"], "Manual review",
        "Missing mandatory fields: estimated_damage").
Proof. vm_compute. reflexivity. Qed.

(** ** The matcher *)

Section MatcherFacts.
Context {A : Type}.
Variable fl : flags.

Implicit Types (k : @cont A) (r : regex) (s : string) (g : option string).

Lemma repeat_greedy_ext cs k k' :
  (forall s g, k s g = k' s g) ->
  forall s lo hi g,
    repeat_greedy fl cs lo hi k s g = repeat_greedy fl cs lo hi k' s g.
Proof.
  intros Hk. induction s as [|a s IH]; intros lo hi g; cbn [repeat_greedy].
  - by rewrite Hk.
  - by rewrite IH, Hk.
Qed.

Lemma repeat_lazy_ext cs k k' :
  (forall s g, k s g = k' s g) ->
  forall s lo hi g,
    repeat_lazy fl cs lo hi k s g = repeat_lazy fl cs lo hi k' s g.
Proof.
  intros Hk. induction s as [|a s IH]; intros lo hi g; cbn [repeat_lazy].
  - by rewrite Hk.
  - by rewrite IH, Hk.
Qed.

(** The matcher only looks at what its continuation returns. *)
Lemma matchk_ext r :
  forall k k', (forall s g, k s g = k' s g) ->
  forall s g, matchk fl r k s g = matchk fl r k' s g.
Proof.
  induction r as [|cs|r1 IH1 r2 IH2|r1 IH1 r2 IH2|[] lo hi cs|r1 IH1|r1 IH1|];
    intros k k' Hk s g; cbn [matchk].
  - apply Hk.
  - destruct s as [|a s]; [reflexivity|]. by rewrite Hk.
  - apply IH1. intros s' g'. by apply IH2.
  - by rewrite (IH1 k k' Hk), (IH2 k k' Hk).
  - by apply repeat_greedy_ext.
  - by apply repeat_lazy_ext.
  - by rewrite (IH1 k k' Hk), Hk.
  - apply IH1. intros s' g'. apply Hk.
  - destruct s; [apply Hk | reflexivity].
Qed.

Lemma repeat_greedy_keeps_group cs k s :
  forall lo hi c,
    repeat_greedy fl cs lo hi k s (Some c) =
    repeat_greedy fl cs lo hi (with_group k) s (Some c).
Proof.
  induction s as [|a s IH]; intros lo hi c; cbn [repeat_greedy]; [reflexivity|].
  by rewrite IH.
Qed.

Lemma repeat_lazy_keeps_group cs k s :
  forall lo hi c,
    repeat_lazy fl cs lo hi k s (Some c) =
    repeat_lazy fl cs lo hi (with_group k) s (Some c).
Proof.
  induction s as [|a s IH]; intros lo hi c; cbn [repeat_lazy]; [reflexivity|].
  by rewrite IH.
Qed.

(** Once group 1 is set it stays set. *)
Lemma matchk_keeps_group r :
  forall k s c,
    matchk fl r k s (Some c) = matchk fl r (with_group k) s (Some c).
Proof.
  induction r as [|cs|r1 IH1 r2 IH2|r1 IH1 r2 IH2|[] lo hi cs|r1 IH1|r1 IH1|];
    intros k s c; cbn [matchk]; try reflexivity.
  - rewrite (IH1 (matchk fl r2 k)), (IH1 (matchk fl r2 (with_group k))).
    apply matchk_ext. intros s' [c'|]; [apply IH2 | reflexivity].
  - by rewrite IH1, IH2.
  - apply repeat_greedy_keeps_group.
  - apply repeat_lazy_keeps_group.
  - by rewrite IH1.
Qed.

(** A pattern that sets group 1 on every path only ever continues with
    the group set. *)
Lemma matchk_sets_group r :
  sets_group r = true ->
  forall k s g, matchk fl r k s g = matchk fl r (with_group k) s g.
Proof.
  induction r as [|cs|r1 IH1 r2 IH2|r1 IH1 r2 IH2|gr lo hi cs|r1 IH1|r1 IH1|];
    cbn [sets_group]; intros H k s g; try discriminate.
  - cbn [matchk]. destruct (sets_group r1) eqn:E1.
    + rewrite (IH1 eq_refl (matchk fl r2 k)),
              (IH1 eq_refl (matchk fl r2 (with_group k))).
      apply matchk_ext. intros s' [c'|]; [apply matchk_keeps_group | reflexivity].
    + apply matchk_ext. intros s' g'. by apply IH2.
  - apply andb_true_iff in H as [H1 H2]. cbn [matchk].
    by rewrite (IH1 H1), (IH2 H2).
  - reflexivity.
Qed.

Lemma repeat_greedy_result cs k s :
  forall lo hi g x,
    repeat_greedy fl cs lo hi k s g = Some x -> exists s' g', k s' g' = Some x.
Proof.
  induction s as [|a s IH]; intros lo hi g x; cbn [repeat_greedy].
  - destruct (Nat.eqb lo 0); [eauto | discriminate].
  - destruct (may_take hi && cset_matches fl cs a).
    + destruct (repeat_greedy fl cs _ _ k s g) eqn:E; cbn [orelse].
      * intros [= <-]. eapply IH, E.
      * destruct (Nat.eqb lo 0); [eauto | discriminate].
    + destruct (Nat.eqb lo 0); [eauto | discriminate].
Qed.

Lemma repeat_lazy_result cs k s :
  forall lo hi g x,
    repeat_lazy fl cs lo hi k s g = Some x -> exists s' g', k s' g' = Some x.
Proof.
  induction s as [|a s IH]; intros lo hi g x; cbn [repeat_lazy].
  - destruct (Nat.eqb lo 0); [eauto | discriminate].
  - destruct (may_take hi && cset_matches fl cs a).
    + destruct (Nat.eqb lo 0); cbn [orelse].
      * destruct (k (String a s) g) eqn:E; [intros [= <-]; eauto | apply IH].
      * apply IH.
    + destruct (Nat.eqb lo 0); [eauto | discriminate].
Qed.

(** Whatever the matcher returns, its continuation returned. *)
Lemma matchk_result r :
  forall k s g x, matchk fl r k s g = Some x -> exists s' g', k s' g' = Some x.
Proof.
  induction r as [|cs|r1 IH1 r2 IH2|r1 IH1 r2 IH2|[] lo hi cs|r1 IH1|r1 IH1|];
    intros k s g x; cbn [matchk].
  - eauto.
  - destruct s as [|a s]; [discriminate|].
    destruct (cset_matches fl cs a); [eauto | discriminate].
  - intros H. apply IH1 in H as (s1 & g1 & H). eapply IH2, H.
  - destruct (matchk fl r1 k s g) eqn:E; cbn [orelse].
    + intros [= <-]. eapply IH1, E.
    + apply IH2.
  - apply repeat_greedy_result.
  - apply repeat_lazy_result.
  - destruct (matchk fl r1 k s g) eqn:E; cbn [orelse].
    + intros [= <-]. eapply IH1, E.
    + eauto.
  - intros H. apply IH1 in H as (s1 & g1 & H). eauto.
  - destruct s; [eauto | discriminate].
Qed.
End MatcherFacts.

Lemma match_here_group (fl : flags) (r : regex) (s : string) (m : match_object) :
  sets_group r = true -> match_here fl r s = Some m -> exists c, group1 m = Some c.
Proof.
  intros Hr. unfold match_here. rewrite (matchk_sets_group fl r Hr).
  intros H. apply matchk_result in H as (s' & [c|] & H); [|discriminate].
  injection H as <-. by exists c.
Qed.

Lemma search_group (fl : flags) (r : regex) (s : string) (m : match_object) :
  sets_group r = true -> search fl r s = Some m -> exists c, group1 m = Some c.
Proof.
  intros Hr. induction s as [|a s IH]; cbn [search].
  - destruct (match_here fl r EmptyString) eqn:E; [|discriminate].
    intros [= <-]. eapply match_here_group; eauto.
  - destruct (match_here fl r (String a s)) eqn:E; [|exact IH].
    intros [= <-]. eapply match_here_group; eauto.
Qed.

(** [first_group] does not raise on a pattern whose every match sets
    group 1, and what it returns is trimmed. *)
Lemma first_group_ok (r : regex) (text : string) (fl : flags) :
  sets_group r = true -> exists v, first_group r text fl = Ok v.
Proof.
  intros Hr. unfold first_group.
  destruct (search fl r text) as [m|] eqn:E; [|by eexists].
  destruct (search_group fl r text m Hr E) as [c ->]. by eexists.
Qed.

Lemma PATTERNS_set_group (k : string) (r : regex) :
  (k, r) ∈ PATTERNS -> sets_group r = true.
Proof.
  unfold PATTERNS. rewrite !elem_of_cons, elem_of_nil.
  intros H. repeat (destruct H as [[= -> ->]|H]; [reflexivity|]). destruct H.
Qed.

(** ** The extractor *)

Ltac first_group_value pat text v E :=
  destruct (first_group_ok pat text I_S eq_refl) as [v E].

(** [extract_fields] returns a dict; each pattern field holds what
    [first_group] found for its pattern, and the two other fields hold
    their constants. *)
Lemma extract_fields_ok (text : string) :
  exists f : fields,
    extract_fields text = Ok f /\
    (forall k r, (k, r) ∈ PATTERNS ->
       first_group r text I_S = Ok (get f k) /\ is_Some (f !! k)) /\
    f !! "asset_type" = Some (Some "Vehicle") /\
    f !! "attachments" =
      Some (Some (if search I pat_attachment text is Some _ then "Yes" else "Unknown")) /\
    dom f = list_to_set MANDATORY_FIELDS.
Proof.
  first_group_value pat_policy_number text v1 E1.
  first_group_value pat_policyholder_name text v2 E2.
  first_group_value pat_effective_dates text v3 E3.
  first_group_value pat_incident_date text v4 E4.
  first_group_value pat_incident_time text v5 E5.
  first_group_value pat_incident_location text v6 E6.
  first_group_value pat_incident_description text v7 E7.
  first_group_value pat_claimant text v8 E8.
  first_group_value pat_third_parties text v9 E9.
  first_group_value pat_contact_details text v10 E10.
  first_group_value pat_asset_id text v11 E11.
  first_group_value pat_estimated_damage text v12 E12.
  first_group_value pat_claim_type text v13 E13.
  first_group_value pat_initial_estimate text v14 E14.
  unfold extract_fields.
  rewrite E1, E2, E3, E4, E5, E6, E7, E8, E9, E10, E11, E12, E13, E14.
  cbn [bind]. eexists. split; [reflexivity|].
  split; [|split; [|split]].
  - intros k r. unfold PATTERNS. rewrite !elem_of_cons, elem_of_nil.
    intros H.
    repeat (destruct H as [[= -> ->]|H];
            [unfold get; simplify_map_eq; split; [assumption | by eexists]|]).
    destruct H.
  - by simplify_map_eq.
  - by simplify_map_eq.
  - rewrite !dom_insert_L, dom_empty_L. unfold MANDATORY_FIELDS. cbn [list_to_set].
    set_solver.
Qed.

Lemma extract_fields_no_match (text : string) (f : fields) (k : string) (r : regex) :
  extract_fields text = Ok f ->
  (k, r) ∈ PATTERNS -> search I_S r text = None -> f !! k = Some None.
Proof.
  intros E Hin Hnone.
  destruct (extract_fields_ok text) as (f' & E' & Hpat & _).
  rewrite E in E'. injection E' as <-.
  destruct (Hpat k r Hin) as [Hfg [v Hv]].
  unfold first_group in Hfg. rewrite Hnone in Hfg. injection Hfg as Hget.
  unfold get in Hget. rewrite Hv in Hget. by rewrite Hv, Hget.
Qed.

(** C4. For every text [extract_fields] returns a dict (it does not raise)
    that has each of the 16 catalog keys, and no other; a pattern without a
    match leaves [None] under its key. *)
Theorem extract_fields_catalog_keys (text : string) :
  exists f : fields,
    extract_fields text = Ok f /\
    length MANDATORY_FIELDS = 16%nat /\
    (forall k, k ∈ MANDATORY_FIELDS <-> is_Some (f !! k)) /\
    (forall k r, (k, r) ∈ PATTERNS -> search I_S r text = None -> f !! k = Some None).
Proof.
  destruct (extract_fields_ok text) as (f & E & Hpat & Hasset & Hatt & Hdom).
  exists f. split; [exact E|]. split; [reflexivity|]. split.
  - intros k. rewrite <- elem_of_dom, Hdom, elem_of_list_to_set. reflexivity.
  - intros k r. by apply (extract_fields_no_match text).
Qed.

(** C10. For every text, asset_type is "Vehicle" and attachments is "Yes" or
    "Unknown" in the extracted fields, and neither is in the missing list;
    on the empty text the missing list is the 14 other catalog fields in
    catalog order, and the route is "Manual review". *)
Theorem constants_never_missing :
  (forall text, exists (f : fields) missing,
      extract_fields text = Ok f /\
      find_missing_fields f = Ok missing /\
      get f "asset_type" = Some "Vehicle" /\
      (get f "attachments" = Some "Yes" \/ get f "attachments" = Some "Unknown") /\
      ("asset_type" ∉ missing) /\ ("attachments" ∉ missing)) /\
  (let* f := extract_fields EmptyString in find_missing_fields f) =
    Ok ["policy_number"; "policyholder_name"; "effective_dates"; "incident_date";
        "incident_time"; "incident_location"; "incident_description"; "claimant";
        "third_parties"; "contact_details"; "asset_id"; "estimated_damage";
        "claim_type"; "initial_estimate"] /\
  (let* f := extract_fields EmptyString in
   let* missing := find_missing_fields f in
   let* r := route_claim f missing in Ok (fst r)) = Ok "Manual review".
Proof.
  split; [|split; vm_compute; reflexivity].
  intros text.
  destruct (extract_fields_ok text) as (f & E & _ & Hasset & Hatt & _).
  pose proof (find_missing_fields_filter f) as Em.
  pose proof (find_missing_fields_elem f _ "asset_type" Em) as Hin1.
  pose proof (find_missing_fields_elem f _ "attachments" Em) as Hin2.
  assert (Ha : get f "asset_type" = Some "Vehicle") by (unfold get; by rewrite Hasset).
  assert (Hb : get f "attachments" = Some "Yes" \/ get f "attachments" = Some "Unknown").
  { unfold get. rewrite Hatt. destruct (search I pat_attachment text); auto. }
  eexists f, _.
  split; [exact E|]. split; [exact Em|]. split; [exact Ha|]. split; [exact Hb|].
  split.
  - intros H. apply Hin1 in H as [_ H]. rewrite Ha in H. vm_compute in H. discriminate.
  - intros H. apply Hin2 in H as [_ H].
    destruct Hb as [Hb|Hb]; rewrite Hb in H; vm_compute in H; discriminate.
Qed.


(** ** Labels with their value on the line below *)

Lemma append_nil_l (s : string) : EmptyString +:+ s = s.
Proof. reflexivity. Qed.

Lemma append_cons (a : ascii) (s t : string) : String a s +:+ t = String a (s +:+ t).
Proof. reflexivity. Qed.

Section LabelFacts.
Context {A : Type}.
Variable fl : flags.

Implicit Types (k : @cont A) (s : string) (g : option string).

Lemma matchk_chr c k s g :
  matchk fl (chr c) k s g =
    match s with
    | String a s' => if same_char fl c a then k s' g else None
    | EmptyString => None
    end.
Proof.
  destruct s as [|a s]; [reflexivity|].
  unfold chr. cbn [matchk cset_matches existsb item_matches].
  by rewrite orb_false_r.
Qed.

Lemma matchk_lit w :
  forall k s g,
    matchk fl (lit w) k s g =
      match skip_literal fl w s with
      | Some s' => k s' g
      | None => None
      end.
Proof.
  induction w as [|c w IH]; intros k s g; [reflexivity|].
  destruct w as [|c' w].
  - cbn [lit skip_literal]. rewrite matchk_chr.
    destruct s as [|a s]; [reflexivity|]. by destruct (same_char fl c a).
  - change (lit (String c (String c' w)))
      with (Seq (chr c) (lit (String c' w))).
    cbn [matchk]. rewrite matchk_chr.
    destruct s as [|a s]; [reflexivity|].
    cbn [skip_literal]. destruct (same_char fl c a); [apply IH | reflexivity].
Qed.

(** A greedy run stops where its characters stop, if the rest of the
    pattern matches there. *)
Lemma repeat_greedy_run cs k line s g x :
  all_in fl cs line = true ->
  (forall a s', s = String a s' -> cset_matches fl cs a = false) ->
  k s g = Some x ->
  repeat_greedy fl cs 0 None k (line +:+ s) g = Some x.
Proof.
  intros Hall Hs Hk. induction line as [|a line IH].
  - rewrite append_nil_l. destruct s as [|b s']; cbn [repeat_greedy]; [exact Hk|].
    rewrite (Hs b s' eq_refl). by rewrite andb_false_r.
  - cbn [all_in] in Hall. apply andb_true_iff in Hall as [Ha Hall].
    rewrite append_cons. cbn [repeat_greedy may_take].
    rewrite Ha. cbn [andb Nat.pred one_less].
    by rewrite (IH Hall).
Qed.

(** A greedy run of a set that holds every character takes the whole
    rest, if the rest of the pattern matches at the end. *)
Lemma repeat_greedy_all cs k s g x :
  (forall a, cset_matches fl cs a = true) ->
  k EmptyString g = Some x ->
  repeat_greedy fl cs 0 None k s g = Some x.
Proof.
  intros Hall Hk. induction s as [|a s IH]; cbn [repeat_greedy]; [exact Hk|].
  rewrite Hall. cbn [may_take andb Nat.pred one_less]. by rewrite IH.
Qed.
End LabelFacts.

Lemma substring_all (s : string) : String.substring 0 (String.length s) s = s.
Proof. induction s as [|a s IH]; [reflexivity|]. simpl. by rewrite IH. Qed.

Lemma consumed_all (s : string) : consumed s EmptyString = s.
Proof. unfold consumed. simpl. rewrite Nat.sub_0_r. apply substring_all. Qed.

Lemma tolower_LF (a : ascii) : Ascii.eqb (Py.tolower LF) (Py.tolower a) = Ascii.eqb a LF.
Proof. destruct a as [[] [] [] [] [] [] [] []]; vm_compute; reflexivity. Qed.

Lemma not_newline_matches (a : ascii) :
  cset_matches I_S not_newline a = negb (Ascii.eqb a LF).
Proof.
  unfold not_newline. cbn [cset_matches existsb item_matches].
  unfold same_char. cbn [ignorecase I_S]. by rewrite orb_false_r, tolower_LF.
Qed.

Lemma one_line_all_in (line : string) :
  one_line line = all_in I_S not_newline line.
Proof.
  induction line as [|a line IH]; [reflexivity|].
  cbn [one_line all_in]. by rewrite not_newline_matches, IH.
Qed.

(** Where the label stands, followed by the rest of its line and a line
    feed, the match takes everything after that line feed as group 1. *)
Lemma label_then_below_here (label s line rest : string) :
  skip_literal I_S label s = Some (line +:+ String LF rest) ->
  one_line line = true ->
  match_here I_S (label_then_below label) s = Some (Match (Some rest)).
Proof.
  intros Hlab Hline. unfold match_here, label_then_below.
  cbn [seqs matchk]. rewrite matchk_lit, Hlab.
  unfold star. cbn [matchk].
  apply repeat_greedy_run.
  - by rewrite <- one_line_all_in.
  - intros a s' [= <- <-]. rewrite not_newline_matches. reflexivity.
  - rewrite matchk_chr. change (same_char I_S LF LF) with true. cbn iota.
    cbn [matchk]. apply repeat_greedy_all; [reflexivity|].
    by rewrite consumed_all.
Qed.

(** Where the label does not stand there is no match. *)
Lemma label_then_below_not_here (label s : string) :
  skip_literal I_S label s = None ->
  match_here I_S (label_then_below label) s = None.
Proof.
  intros Hlab. unfold match_here, label_then_below.
  cbn [seqs matchk]. by rewrite matchk_lit, Hlab.
Qed.

Lemma label_then_below_search (label pre s line rest : string) :
  first_at label pre s ->
  skip_literal I_S label s = Some (line +:+ String LF rest) ->
  one_line line = true ->
  search I_S (label_then_below label) (pre +:+ s) = Some (Match (Some rest)).
Proof.
  intros Hfirst Hlab Hline. induction pre as [|a pre IH].
  - rewrite append_nil_l. destruct s as [|b s]; cbn [search];
      by rewrite (label_then_below_here label _ line rest Hlab Hline).
  - rewrite append_cons. cbn [search].
    rewrite (label_then_below_not_here label (String a (pre +:+ s))).
    + apply IH. intros p q -> Hq. apply (Hfirst (String a p) q); done.
    + apply (Hfirst EmptyString (String a pre)); done.
Qed.

Lemma label_then_below_absent (label text : string) :
  nowhere label text ->
  search I_S (label_then_below label) text = None.
Proof.
  unfold nowhere.
  induction text as [|a text IH]; intros H; cbn [search].
  - by rewrite (label_then_below_not_here label EmptyString (H EmptyString _ eq_refl)).
  - rewrite (label_then_below_not_here label _ (H EmptyString _ eq_refl)).
    apply IH. intros p q ->. apply (H (String a p) q). reflexivity.
Qed.

Lemma first_group_label_then_below (label pre s line rest : string) :
  first_at label pre s ->
  skip_literal I_S label s = Some (line +:+ String LF rest) ->
  one_line line = true ->
  first_group (label_then_below label) (pre +:+ s) I_S = Ok (Some (Py.strip rest)).
Proof.
  intros Hfirst Hlab Hline. unfold first_group.
  by rewrite (label_then_below_search label pre s line rest Hfirst Hlab Hline).
Qed.

(** C8, as the code has it. Where "NAME OF INSURED" (resp. "LOCATION OF
    LOSS") first stands in the text, in either case, and a line feed
    follows on its line, policyholder_name (resp. incident_location) is
    everything after that line feed up to the end of the text, trimmed: all
    the lines below the label, not the first of them only. *)
Theorem value_below_label_is_rest_of_text (key label pre s line rest : string) :
  (key, label) ∈ [("policyholder_name", "NAME OF INSURED");
                   ("incident_location", "LOCATION OF LOSS")] ->
  first_at label pre s ->
  skip_literal I_S label s = Some (line +:+ String LF rest) ->
  one_line line = true ->
  exists f : fields,
    extract_fields (pre +:+ s) = Ok f /\ get f key = Some (Py.strip rest).
Proof.
  intros Hkey Hfirst Hlab Hline.
  destruct (extract_fields_ok (pre +:+ s)) as (f & E & Hpat & _).
  exists f. split; [exact E|].
  pose proof (first_group_label_then_below label pre s line rest Hfirst Hlab Hline)
    as Hfg.
  rewrite !elem_of_cons, elem_of_nil in Hkey.
  destruct Hkey as [[= -> ->]|[[= -> ->]|[]]].
  - destruct (Hpat "policyholder_name" pat_policyholder_name) as [Hv _].
    { unfold PATTERNS. in_list. }
    change pat_policyholder_name with (label_then_below "NAME OF INSURED") in Hv.
    rewrite Hfg in Hv. by injection Hv.
  - destruct (Hpat "incident_location" pat_incident_location) as [Hv _].
    { unfold PATTERNS. in_list. }
    change pat_incident_location with (label_then_below "LOCATION OF LOSS") in Hv.
    rewrite Hfg in Hv. by injection Hv.
Qed.

Lemma first_at_start (label s : string) : first_at label EmptyString s.
Proof. intros [|a p] [|b q] H Hq; done. Qed.

Lemma value_below_label_witness :
  exists f : fields,
    extract_fields notice_two_labels = Ok f /\
    get f "policyholder_name" =
      Some (doc ["John Smith"; "LOCATION OF LOSS"; "12 Main Street";
                 "POLICY NUMBER: AB-12345"]).
Proof.
  refine (value_below_label_is_rest_of_text
            "policyholder_name" "NAME OF INSURED" EmptyString notice_two_labels
            " (First, Middle, Last)"
            (doc ["John Smith"; "LOCATION OF LOSS"; "12 Main Street";
                  "POLICY NUMBER: AB-12345"]) _ _ _ _).
  - apply list_elem_of_here.
  - apply first_at_start.
  - vm_compute. reflexivity.
  - vm_compute. reflexivity.
Defined.

(** Where the label stands nowhere, the field is [None]. *)
Lemma value_below_label_absent (key label text : string) :
  (key, label) ∈ [("policyholder_name", "NAME OF INSURED");
                   ("incident_location", "LOCATION OF LOSS")] ->
  nowhere label text ->
  exists f : fields, extract_fields text = Ok f /\ f !! key = Some None.
Proof.
  intros Hkey Hno.
  destruct (extract_fields_ok text) as (f & E & _).
  exists f. split; [exact E|].
  rewrite !elem_of_cons, elem_of_nil in Hkey.
  destruct Hkey as [[= -> ->]|[[= -> ->]|[]]].
  - apply (extract_fields_no_match text f _ pat_policyholder_name E).
    + unfold PATTERNS. in_list.
    + by apply (label_then_below_absent "NAME OF INSURED").
  - apply (extract_fields_no_match text f _ pat_incident_location E).
    + unfold PATTERNS. in_list.
    + by apply (label_then_below_absent "LOCATION OF LOSS").
Qed.

(** On the notice with two labels both values run to the end of the
    text. *)
Lemma extract_fields_two_labels :
  (let* f := extract_fields notice_two_labels in
   Ok (get f "policyholder_name", get f "incident_location")) =
    Ok (Some (doc ["John Smith"; "LOCATION OF LOSS"; "12 Main Street";
                   "POLICY NUMBER: AB-12345"]),
        Some (doc ["12 Main Street"; "POLICY NUMBER: AB-12345"])).
Proof. vm_compute. reflexivity. Qed.

(** ** The description *)

Lemma heading_chars_matches (a : ascii) :
  cset_matches I_S heading_chars a = letter_or_blank a.
Proof. destruct a as [[] [] [] [] [] [] [] []]; vm_compute; reflexivity. Qed.

Lemma colon_not_heading (a : ascii) :
  letter_or_blank a = true -> Ascii.eqb a ":" = false.
Proof. destruct a as [[] [] [] [] [] [] [] []]; vm_compute; congruence. Qed.

Lemma same_char_colon (a : ascii) : same_char I_S ":" a = Ascii.eqb a ":".
Proof. destruct a as [[] [] [] [] [] [] [] []]; vm_compute; reflexivity. Qed.

Lemma same_char_LF (a : ascii) : same_char I_S LF a = Ascii.eqb a LF.
Proof. apply tolower_LF. Qed.

Section DescriptionFacts.
Context {A : Type}.

Implicit Types (k : @cont A) (s : string) (g : option string).

Lemma matchk_Seq fl r1 r2 k s g :
  matchk fl (Seq r1 r2) k s g = matchk fl r1 (matchk fl r2 k) s g.
Proof. reflexivity. Qed.

Lemma matchk_Group fl r k s g :
  matchk fl (Group r) k s g =
    matchk fl r (fun s' _ => k s' (Some (consumed s s'))) s g.
Proof. reflexivity. Qed.

Lemma matchk_star fl cs k s g :
  matchk fl (star cs) k s g = repeat_greedy fl cs 0 None k s g.
Proof. reflexivity. Qed.

Lemma matchk_plus_lazy fl cs k s g :
  matchk fl (plus_lazy cs) k s g = repeat_lazy fl cs 1 None k s g.
Proof. reflexivity. Qed.

Lemma orelse_None_r (x : option A) : orelse x None = x.
Proof. by destruct x. Qed.

(** Five or more heading characters and a colon, greedy: the run is taken
    whole, and the colon has to follow it. *)
Lemma heading_run k s :
  forall lo g,
    repeat_greedy I_S heading_chars lo None (matchk I_S (chr ":") k) s g =
      match skip_heading lo s with
      | Some s' => k s' g
      | None => None
      end.
Proof.
  induction s as [|a s IH]; intros lo g; cbn [repeat_greedy skip_heading].
  - rewrite matchk_chr. by destruct (Nat.eqb lo 0).
  - rewrite heading_chars_matches, !matchk_chr, same_char_colon.
    cbn [may_take andb one_less].
    destruct (letter_or_blank a) eqn:Ha.
    + rewrite IH, (colon_not_heading a Ha).
      assert ((if Nat.eqb lo 0 then @None A else None) = None) as ->
        by (by destruct (Nat.eqb lo 0)).
      apply orelse_None_r.
    + destruct (Nat.eqb lo 0); [|reflexivity].
      by destruct (Ascii.eqb a ":").
Qed.

(** The end of the description matches exactly at a terminator. *)
Lemma description_end_matches k s g :
  matchk I_S description_end k s g =
    match after_terminator s with
    | Some s' => k s' g
    | None => None
    end.
Proof.
  unfold description_end. cbn [matchk seqs]. rewrite matchk_chr.
  destruct s as [|a s]; [reflexivity|].
  cbn [after_terminator]. rewrite same_char_LF, orelse_None_r.
  destruct (Ascii.eqb a LF); [|reflexivity].
  unfold at_least. cbn [matchk]. apply heading_run.
Qed.

(** A lazy run stops at the first place where the rest of the pattern
    matches. *)
Lemma repeat_lazy_first (stop : string -> bool) (F : string -> A) cs k g c rem :
  all_in I_S cs c = true ->
  (forall s, k s g = if stop s then Some (F s) else None) ->
  first_stop stop c rem = true ->
  repeat_lazy I_S cs 0 None k (c +:+ rem) g = Some (F rem).
Proof.
  intros Hall Hk. induction c as [|a c IH]; cbn [first_stop]; intros Hfirst.
  - rewrite append_nil_l. destruct rem as [|b rem]; cbn [repeat_lazy].
    + by rewrite Hk, Hfirst.
    + rewrite Hk, Hfirst. by destruct (may_take None && cset_matches I_S cs b).
  - apply andb_true_iff in Hfirst as [Hno Hfirst].
    apply negb_true_iff in Hno.
    cbn [all_in] in Hall. apply andb_true_iff in Hall as [Ha Hall].
    rewrite append_cons. cbn [repeat_lazy may_take].
    rewrite Ha, Hk. rewrite append_cons in Hno. rewrite Hno.
    cbn [andb Nat.eqb orelse Nat.pred one_less]. by apply IH.
Qed.
End DescriptionFacts.

Lemma all_in_dot (s : string) : all_in I_S Dot s = true.
Proof. induction s as [|a s IH]; [reflexivity|]. exact IH. Qed.

Lemma length_append (s t : string) :
  String.length (s +:+ t) = (String.length s + String.length t)%nat.
Proof.
  induction s as [|a s IH]; [reflexivity|]. rewrite append_cons. simpl. by rewrite IH.
Qed.

Lemma substring_prefix (s t : string) :
  String.substring 0 (String.length s) (s +:+ t) = s.
Proof.
  induction s as [|a s IH].
  - rewrite append_nil_l. by destruct t.
  - rewrite append_cons. simpl. by rewrite IH.
Qed.

Lemma consumed_append (s t : string) : consumed (s +:+ t) t = s.
Proof.
  unfold consumed. rewrite length_append.
  replace (String.length s + String.length t - String.length t)%nat
    with (String.length s) by lia.
  apply substring_prefix.
Qed.

(** Where the label stands, followed by the rest of its line, a line feed,
    a text [cap] and a first terminator, group 1 is [cap]. *)
Lemma description_here (s line cap rem : string) :
  skip_literal I_S "DESCRIPTION OF ACCIDENT" s = Some (line +:+ String LF (cap +:+ rem)) ->
  one_line line = true ->
  stops_first cap rem = true ->
  match_here I_S pat_incident_description s = Some (Match (Some cap)).
Proof.
  intros Hlab Hline Hstop. unfold match_here.
  change pat_incident_description
    with (Seq (lit "DESCRIPTION OF ACCIDENT")
            (Seq (star not_newline)
               (Seq (chr LF) (Seq (Group (plus_lazy Dot)) description_end)))).
  rewrite matchk_Seq, matchk_lit, Hlab, matchk_Seq, matchk_star.
  apply repeat_greedy_run.
  - by rewrite <- one_line_all_in.
  - intros a s' [= <- <-]. rewrite not_newline_matches. reflexivity.
  - rewrite matchk_Seq, matchk_chr. change (same_char I_S LF LF) with true. cbn iota.
    rewrite matchk_Seq, matchk_Group, matchk_plus_lazy.
    destruct cap as [|a c]; [discriminate|]. cbn [stops_first] in Hstop.
    set (body := String a c +:+ rem).
    change body with (String a (c +:+ rem)) at 2.
    cbn [repeat_lazy may_take cset_matches dotall I_S orb andb
         Nat.eqb orelse Nat.pred one_less].
    rewrite (repeat_lazy_first terminator (fun s' => Match (Some (consumed body s')))
               Dot _ None c rem).
    + unfold body. by rewrite consumed_append.
    + apply all_in_dot.
    + intros s'. rewrite description_end_matches. unfold terminator.
      by destruct (after_terminator s').
    + exact Hstop.
Qed.

(** Where the label does not stand there is no match. *)
Lemma description_not_here (s : string) :
  skip_literal I_S "DESCRIPTION OF ACCIDENT" s = None ->
  match_here I_S pat_incident_description s = None.
Proof.
  intros Hlab. unfold match_here.
  change pat_incident_description
    with (Seq (lit "DESCRIPTION OF ACCIDENT")
            (Seq (star not_newline)
               (Seq (chr LF) (Seq (Group (plus_lazy Dot)) description_end)))).
  by rewrite matchk_Seq, matchk_lit, Hlab.
Qed.

Lemma description_search (pre s line cap rem : string) :
  first_at "DESCRIPTION OF ACCIDENT" pre s ->
  skip_literal I_S "DESCRIPTION OF ACCIDENT" s = Some (line +:+ String LF (cap +:+ rem)) ->
  one_line line = true ->
  stops_first cap rem = true ->
  search I_S pat_incident_description (pre +:+ s) = Some (Match (Some cap)).
Proof.
  intros Hfirst Hlab Hline Hstop. induction pre as [|a pre IH].
  - rewrite append_nil_l. destruct s as [|b s]; cbn [search];
      by rewrite (description_here _ line cap rem Hlab Hline Hstop).
  - rewrite append_cons. cbn [search].
    rewrite (description_not_here (String a (pre +:+ s))).
    + apply IH. intros p q -> Hq. apply (Hfirst (String a p) q); done.
    + apply (Hfirst EmptyString (String a pre)); done.
Qed.

(** C9, as the code has it. Where "DESCRIPTION OF ACCIDENT" first stands in
    the text, in either case, the description is the text [cap] that starts
    below the label's line and runs up to the first terminator after its
    first character, trimmed; a terminator is the end of the text or a line
    that starts with five or more letters of either case or blanks and a
    colon.  Lower-case letters count: such a line ends the description as an
    upper-case heading does. *)
Theorem description_stops_at_first_terminator (pre s line cap rem : string) :
  first_at "DESCRIPTION OF ACCIDENT" pre s ->
  skip_literal I_S "DESCRIPTION OF ACCIDENT" s = Some (line +:+ String LF (cap +:+ rem)) ->
  one_line line = true ->
  stops_first cap rem = true ->
  exists f : fields,
    extract_fields (pre +:+ s) = Ok f /\
    get f "incident_description" = Some (Py.strip cap).
Proof.
  intros Hfirst Hlab Hline Hstop.
  destruct (extract_fields_ok (pre +:+ s)) as (f & E & Hpat & _).
  exists f. split; [exact E|].
  destruct (Hpat "incident_description" pat_incident_description) as [Hv _].
  { unfold PATTERNS. in_list. }
  unfold first_group in Hv.
  rewrite (description_search pre s line cap rem Hfirst Hlab Hline Hstop) in Hv.
  by injection Hv.
Qed.

Lemma description_stops_at_lowercase_line :
  terminator (doc [""; "notes: driver was alone"; "REMARKS: none"]) = true /\
  exists f : fields,
    extract_fields notice_lowercase_line = Ok f /\
    get f "incident_description" = Some "Rear-ended at a red light".
Proof.
  split; [reflexivity|].
  refine (description_stops_at_first_terminator
            EmptyString notice_lowercase_line EmptyString
            "Rear-ended at a red light"
            (doc [""; "notes: driver was alone"; "REMARKS: none"]) _ _ _ _).
  - apply first_at_start.
  - vm_compute. reflexivity.
  - reflexivity.
  - vm_compute. reflexivity.
Defined.

(** Matched without [re.I], the same pattern takes the description of that
    notice up to the upper-case heading, and matched without [re.S] the
    pattern of the name takes one line. *)
Lemma patterns_without_default_flags :
  first_group pat_incident_description notice_lowercase_line (Flags false true) =
    Ok (Some (doc ["Rear-ended at a red light"; "notes: driver was alone"])) /\
  first_group pat_policyholder_name notice_two_labels I = Ok (Some "John Smith").
Proof. split; vm_compute; reflexivity. Qed.

(** * Further properties *)

(** ** More on the router *)

Lemma get_insert_eq (f : fields) (k : string) (v : option string) :
  get (<[k := v]> f) k = v.
Proof. unfold get. by rewrite lookup_insert_eq. Qed.

Lemma get_insert_ne (f : fields) (k k' : string) (v : option string) :
  k <> k' -> get (<[k := v]> f) k' = get f k'.
Proof. intros H. unfold get. by rewrite lookup_insert_ne. Qed.

(** X1. With an empty missing list and no fraud keyword, a claim type that
    contains "injury" once lower-cased sends the claim to "Specialist
    Queue", whatever the estimate is. *)
Theorem injury_goes_to_specialist (f : fields) :
  fraud_keyword f = false ->
  injury f = true ->
  route_claim f [] = Ok ("Specialist Queue", "Claim type indicates injury.").
Proof.
  intros Hf Hj. destruct (route_claim_est f []) as (est & _ & ->).
  by rewrite Hf, Hj.
Qed.

Lemma injury_goes_to_specialist_witness :
  small_amount "$5,000" = true /\
  route_claim injury_claim [] = Ok ("Specialist Queue", "Claim type indicates injury.").
Proof.
  split; [vm_compute; reflexivity|].
  apply (injury_goes_to_specialist injury_claim); vm_compute; reflexivity.
Defined.

Lemma route_claim_answer (f : fields) (missing : list string) :
  exists d j, route_claim f missing = Ok (d, j) /\ d ∈ DESTINATIONS.
Proof.
  destruct (route_claim_est f missing) as (est & _ & ->).
  destruct missing as [|k missing].
  - destruct (fraud_keyword f); [|destruct (injury f);
      [|destruct (Float.truthy est && Float.ltb est (Float.of_int 25000))]];
      do 2 eexists; (split; [reflexivity|]); unfold DESTINATIONS; in_list.
  - do 2 eexists. split; [reflexivity|]. unfold DESTINATIONS. in_list.
Qed.

(** X2. [route_claim] never raises, and its destination is one of the four
    labels. *)
Theorem route_claim_destination (f : fields) (missing : list string) :
  exists d j, route_claim f missing = Ok (d, j) /\ d ∈ DESTINATIONS.
Proof. apply route_claim_answer. Qed.

(** X3. [route_claim] reads four fields only: a change of any other key of
    the dict changes nothing in its answer. *)
Theorem route_claim_reads_four_fields
        (f : fields) (missing : list string) (k : string) (v : option string) :
  k ∉ ROUTING_FIELDS ->
  route_claim (<[k := v]> f) missing = route_claim f missing.
Proof.
  intros Hk.
  assert (Hne : forall k', k' ∈ ROUTING_FIELDS -> k <> k') by (by intros k' Hin ->).
  unfold route_claim.
  by rewrite !get_insert_ne by (apply Hne; unfold ROUTING_FIELDS; in_list).
Qed.

Lemma route_claim_reads_four_fields_witness :
  route_claim (<["policy_number" := Some "AB-12345"]> injury_claim) [] =
  route_claim injury_claim [].
Proof.
  apply (route_claim_reads_four_fields injury_claim [] "policy_number").
  unfold ROUTING_FIELDS. rewrite !elem_of_cons, elem_of_nil.
  intros [H|[H|[H|[H|[]]]]]; discriminate H.
Defined.

Lemma route_claim_estimate_first (f : fields) (missing : list string) (v : option string) :
  Py.truthy (get f "estimated_damage") = true ->
  route_claim (<["initial_estimate" := v]> f) missing = route_claim f missing.
Proof.
  intros Ht. unfold route_claim.
  rewrite (get_insert_ne f _ "incident_description") by discriminate.
  rewrite (get_insert_ne f _ "claim_type") by discriminate.
  rewrite (get_insert_ne f _ "estimated_damage") by discriminate.
  rewrite get_insert_eq.
  unfold Py.or_else. by rewrite Ht.
Qed.

(** X4. When estimated_damage is a non-empty string, [route_claim] does not
    look at initial_estimate: whatever stands there, the answer is the
    same. *)
Theorem initial_estimate_unused_with_estimate
        (f : fields) (missing : list string) (v : option string) :
  Py.truthy (get f "estimated_damage") = true ->
  route_claim (<["initial_estimate" := v]> f) missing = route_claim f missing.
Proof. apply route_claim_estimate_first. Qed.

Lemma initial_estimate_unused_with_estimate_witness :
  route_claim (<["initial_estimate" := Some "$5,000"]> two_points_claim) [] =
  route_claim two_points_claim [].
Proof.
  apply (initial_estimate_unused_with_estimate two_points_claim []). reflexivity.
Defined.

(** ** More on the amount parser *)

Lemma isdecimal_not_point (a : ascii) :
  Py.isdecimal a = true -> Ascii.eqb a "." = false.
Proof. destruct a as [[] [] [] [] [] [] [] []]; vm_compute; congruence. Qed.

Lemma points_keep_numeric (s : string) : points (keep_numeric s) = points s.
Proof.
  induction s as [|a s IH]; [reflexivity|]. cbn [keep_numeric points].
  destruct (Py.isdecimal a) eqn:Hd; cbn [orb].
  - cbn [points]. by rewrite IH.
  - destruct (Ascii.eqb a ".") eqn:Hp; [|exact IH].
    cbn [points]. by rewrite Hp, IH.
Qed.

Lemma scan_second_point (n : string) :
  forall st, Float.seen_point st = true -> (1 <= points n)%nat ->
             Float.scan n st = Raise ValueError.
Proof.
  induction n as [|c n IH]; intros st Hst Hp; cbn [points] in Hp; [lia|].
  cbn [Float.scan]. destruct (Py.isdecimal c) eqn:Hd.
  - rewrite (isdecimal_not_point c Hd) in Hp. apply IH; [exact Hst | exact Hp].
  - destruct (Ascii.eqb c "."); [by rewrite Hst | reflexivity].
Qed.

Lemma scan_two_points (n : string) :
  forall st, (2 <= points n)%nat -> Float.scan n st = Raise ValueError.
Proof.
  induction n as [|c n IH]; intros st Hp; cbn [points] in Hp; [lia|].
  cbn [Float.scan]. destruct (Py.isdecimal c) eqn:Hd.
  - rewrite (isdecimal_not_point c Hd) in Hp. apply IH. exact Hp.
  - destruct (Ascii.eqb c "."); [|reflexivity].
    destruct (Float.seen_point st); [reflexivity|].
    apply scan_second_point; [reflexivity | lia].
Qed.

Lemma parse_amount_two_points (s : string) :
  (2 <= points s)%nat -> parse_amount (Some s) = Ok Float.zero.
Proof.
  intros Hp. rewrite parse_amount_stripped.
  destruct (keep_numeric s) as [|a n] eqn:E; [reflexivity|].
  unfold Float.of_str. rewrite scan_two_points; [reflexivity|].
  by rewrite <- E, points_keep_numeric.
Qed.

(** X5. An amount with two or more decimal points parses to 0.0, whatever
    its digits are, and so fails the amount test of the router. *)
Theorem two_points_parse_to_zero (s : string) :
  (2 <= points s)%nat ->
  parse_amount (Some s) = Ok Float.zero /\ small_amount s = false.
Proof.
  intros Hp. pose proof (parse_amount_two_points s Hp) as E.
  split; [exact E|]. unfold small_amount. by rewrite E.
Qed.

Lemma two_points_parse_to_zero_witness :
  parse_amount (Some "$1.000.000") = Ok Float.zero /\
  small_amount "$1.000.000" = false.
Proof. apply (two_points_parse_to_zero "$1.000.000"). vm_compute. lia. Defined.

(** *** The sign of the result *)

Lemma shr_1_nonneg (mrs : shr_record) : 0 <= shr_m mrs -> 0 <= shr_m (shr_1 mrs).
Proof.
  destruct mrs as [m r s]. cbn [shr_m]. intros H.
  destruct m as [|[p|p|]|p]; cbn; lia.
Qed.

Lemma iter_pos_shr_1_nonneg (p : positive) :
  forall mrs, 0 <= shr_m mrs -> 0 <= shr_m (SpecFloat.iter_pos shr_1 p mrs).
Proof.
  induction p as [p IH|p IH|]; intros mrs H; cbn [SpecFloat.iter_pos].
  - apply IH, IH. by apply shr_1_nonneg.
  - by apply IH, IH.
  - by apply shr_1_nonneg.
Qed.

Lemma shr_fexp_nonneg (prec emax m e : Z) (l : location) :
  0 <= m -> 0 <= shr_m (fst (shr_fexp prec emax m e l)).
Proof.
  intros H. unfold shr_fexp, shr.
  assert (Hm : 0 <= shr_m (shr_record_of_loc m l)) by (by destruct l as [|[]]).
  destruct (fexp prec emax (Zdigits2 m + e) - e); cbn [fst]; [exact Hm| |exact Hm].
  by apply iter_pos_shr_1_nonneg.
Qed.

Lemma round_nearest_even_nonneg (m : Z) (l : location) :
  0 <= m -> 0 <= round_nearest_even m l.
Proof.
  intros H. destruct l as [|[]]; cbn [round_nearest_even]; try lia.
  destruct (Z.even m); lia.
Qed.

Lemma binary_round_aux_nonnegative (prec emax m e : Z) (l : location) :
  0 <= m -> nonnegative (binary_round_aux prec emax false m e l).
Proof.
  intros H. unfold binary_round_aux.
  pose proof (shr_fexp_nonneg prec emax m e l H) as H1.
  destruct (shr_fexp prec emax m e l) as [mrs' e']. cbn [fst] in H1.
  pose proof (shr_fexp_nonneg prec emax _ e' loc_Exact
                (round_nearest_even_nonneg _ (loc_of_shr_record mrs') H1)) as H2.
  destruct (shr_fexp prec emax _ e' loc_Exact) as [mrs'' e'']. cbn [fst] in H2.
  destruct (shr_m mrs'') as [|p|p]; [exact Logic.I| |lia].
  by destruct (e'' <=? emax - prec).
Qed.

Lemma of_decimal_nonnegative (m : N) (k : nat) : nonnegative (Float.of_decimal m k).
Proof.
  destruct m as [|p]; [exact Logic.I|].
  unfold Float.of_decimal, SFdiv, SFdiv_core_binary. cbn [xorb].
  set (m' := match _ with Zpos _ => _ | Z0 => _ | Zneg _ => _ end).
  assert (Hm' : 0 <= m').
  { unfold m'. destruct (_ - _ - _) as [|s|s]; [lia| |lia].
    apply Z.shiftl_nonneg. lia. }
  pose proof (Z.div_pos m' (Zpos (Float.pow10 k)) Hm' ltac:(lia)) as Hq.
  unfold Z.div in Hq.
  destruct (Z.div_eucl m' (Zpos (Float.pow10 k))) as [q r]. cbn [fst] in Hq.
  by apply binary_round_aux_nonnegative.
Qed.

Lemma of_str_nonnegative (n : string) (x : Float.float) :
  Float.of_str n = Ok x -> nonnegative x.
Proof.
  unfold Float.of_str. destruct (Float.scan n _) as [st|e]; [|discriminate].
  cbn [bind]. destruct (Float.seen_digit st); [|discriminate].
  intros [= <-]. apply of_decimal_nonnegative.
Qed.

(** X6. Whatever it is given, [parse_amount] returns a number that is
    neither negative nor a NaN: a minus sign in the text is dropped with
    the other characters. *)
Theorem parse_amount_nonnegative (v : option string) :
  exists x, parse_amount v = Ok x /\ nonnegative x.
Proof.
  destruct v as [s|]; [|by eexists].
  rewrite parse_amount_stripped.
  destruct (keep_numeric s) as [|a n]; [by eexists|].
  destruct (Float.of_str (String a n)) as [x|e] eqn:E; [|by eexists].
  exists x. split; [reflexivity|]. by apply (of_str_nonnegative (String a n)).
Qed.

(** *** The threshold on whole amounts *)

Lemma in_nrange (len : nat) :
  forall start n, (start <= n < start + N.of_nat len)%N -> List.In n (nrange len start).
Proof.
  induction len as [|len IH]; intros start n Hn; [lia|].
  cbn [nrange]. destruct (N.eq_dec start n) as [->|Hne]; [by left|].
  right. apply IH. lia.
Qed.

Lemma small_amount_dollars_checked :
  forallb (fun n => Bool.eqb (small_amount (dollars n)) ((0 <? n)%N && (n <? 25000)%N))
          (nrange (N.to_nat 100001) 0%N) = true.
Proof. vm_compute. reflexivity. Qed.

Lemma small_amount_dollars (n : N) :
  (n <= 100000)%N ->
  small_amount (dollars n) = (0 <? n)%N && (n <? 25000)%N.
Proof.
  intros Hn. pose proof small_amount_dollars_checked as H.
  rewrite forallb_forall in H. apply Bool.eqb_prop, H.
  apply in_nrange. lia.
Qed.

(** X7. For a whole amount of dollars up to 100000, written ["$"] and its
    digits in estimated_damage, a claim with an empty missing list, no fraud
    keyword and no injury is sent to "Fast-track" exactly when the amount is
    above 0 and below 25000, and to "Manual review" otherwise: 0 and 25000
    themselves are not fast-tracked. *)
Theorem whole_amount_threshold (f : fields) (n : N) :
  (n <= 100000)%N ->
  get f "estimated_damage" = Some (dollars n) ->
  fraud_keyword f = false ->
  injury f = false ->
  exists j,
    route_claim f [] =
      Ok (if (0 <? n)%N && (n <? 25000)%N then "Fast-track" else "Manual review", j).
Proof.
  intros Hn He Hf Hj. pose proof (small_amount_dollars n Hn) as Hs.
  destruct (route_claim_est f []) as (est & E & ->).
  rewrite He in E. change (Py.or_else (Some (dollars n)) _) with (Some (dollars n)) in E.
  unfold small_amount in Hs. rewrite E in Hs. rewrite Hf, Hj, Hs.
  destruct ((0 <? n)%N && (n <? 25000)%N); by eexists.
Qed.

Lemma whole_amount_threshold_witness :
  exists j,
    route_claim (<["estimated_damage" := Some "$25000"]> two_points_claim) [] =
      Ok ("Manual review", j).
Proof.
  apply (whole_amount_threshold
           (<["estimated_damage" := Some "$25000"]> two_points_claim) 25000);
    [vm_compute; discriminate | reflexivity..].
Defined.

(** ** More on the completeness checker *)

Lemma filter_nil_forall {A : Type} (P : A -> Prop) `{!forall a, Decision (P a)}
      (l : list A) :
  filter P l = [] <-> forall a, a ∈ l -> ~ P a.
Proof.
  induction l as [|x l IH].
  - split; [intros _ a Ha; by apply elem_of_nil in Ha | reflexivity].
  - rewrite filter_cons. destruct (decide (P x)) as [Hx|Hx].
    + split; [discriminate|]. intros Hall. exfalso.
      apply (Hall x); [in_list | exact Hx].
    + rewrite IH. split.
      * intros Hall a [->|Ha]%elem_of_cons; [exact Hx | by apply Hall].
      * intros Hall a Ha. apply Hall. by apply list_elem_of_further.
Qed.

Lemma filter_agree {A : Type} (P Q : A -> Prop)
      `{!forall a, Decision (P a)} `{!forall a, Decision (Q a)} (l : list A) :
  (forall a, a ∈ l -> P a <-> Q a) -> filter P l = filter Q l.
Proof.
  induction l as [|x l IH]; intros Hall; [reflexivity|].
  rewrite !filter_cons.
  assert (Hx : P x <-> Q x) by (apply Hall; in_list).
  rewrite IH by (intros a Ha; apply Hall; by apply list_elem_of_further).
  destruct (decide (P x)), (decide (Q x)); tauto.
Qed.

Lemma not_absent_or_blank (v : option string) :
  ~ absent_or_blank v <-> exists s, v = Some s /\ Py.strip s <> EmptyString.
Proof.
  destruct v as [s|]; cbn [absent_or_blank].
  - split; [intros H; by exists s | by intros (s' & [= <-] & H)].
  - split; [intros H; by destruct H | by intros (s' & [=] & _)].
Qed.

Lemma NoDup_MANDATORY_FIELDS : NoDup MANDATORY_FIELDS.
Proof. apply (bool_decide_unpack _). vm_compute. exact Logic.I. Qed.

(** X8. The missing list has no field twice, and it is empty exactly when
    each of the 16 mandatory fields holds a string that is not blank. *)
Theorem missing_list_empty_iff_complete (f : fields) :
  exists missing,
    find_missing_fields f = Ok missing /\
    NoDup missing /\
    (missing = [] <-> complete f).
Proof.
  eexists. split; [apply find_missing_fields_filter|]. split.
  - apply NoDup_filter, NoDup_MANDATORY_FIELDS.
  - rewrite filter_nil_forall. unfold complete.
    split; intros H k Hk; apply not_absent_or_blank; by apply H.
Qed.

(** X9. [find_missing_fields] looks at the 16 catalog keys only: a change
    under any other key of the dict does not change its result. *)
Theorem find_missing_fields_ignores_other_keys
        (f : fields) (k : string) (v : option string) :
  k ∉ MANDATORY_FIELDS ->
  find_missing_fields (<[k := v]> f) = find_missing_fields f.
Proof.
  intros Hk. rewrite !find_missing_fields_filter. f_equal.
  apply filter_agree. intros k' Hk'.
  rewrite get_insert_ne; [reflexivity|]. by intros ->.
Qed.

Lemma find_missing_fields_ignores_other_keys_witness :
  find_missing_fields (<["notes" := Some "call back"]> fallback_claim) =
  find_missing_fields fallback_claim.
Proof.
  apply (find_missing_fields_ignores_other_keys fallback_claim "notes").
  apply (bool_decide_unpack _). vm_compute. exact Logic.I.
Defined.

(** ** More on the extractor *)

Lemma tolower_eqb (c a : ascii) :
  same_char I_S c a = (if ascii_dec (Py.tolower c) (Py.tolower a) then true else false).
Proof.
  unfold same_char. cbn [ignorecase I_S].
  destruct (ascii_dec _ _) as [->|H]; [apply Ascii.eqb_refl | by apply Ascii.eqb_neq].
Qed.

(** Skipping a literal under [re.I] is a prefix test on the lower-cased
    strings. *)
Lemma skip_literal_prefix (w : string) :
  forall s, (if skip_literal I_S w s is Some _ then true else false) =
            String.prefix (Py.lower w) (Py.lower s).
Proof.
  induction w as [|c w IH]; intros s; [by destruct s|].
  destruct s as [|a s]; [reflexivity|].
  cbn [skip_literal Py.lower String.prefix]. rewrite tolower_eqb.
  destruct (ascii_dec _ _); [apply IH | reflexivity].
Qed.

Lemma lower_append (p q : string) : Py.lower (p +:+ q) = Py.lower p +:+ Py.lower q.
Proof.
  induction p as [|a p IH]; [reflexivity|].
  rewrite append_cons. cbn [Py.lower]. by rewrite IH, append_cons.
Qed.

Lemma contains_suffix (w p q : string) :
  String.prefix w q = true -> Py.contains w (p +:+ q) = true.
Proof.
  intros H. induction p as [|a p IH].
  - rewrite append_nil_l. destruct q; cbn [Py.contains]; by rewrite H.
  - rewrite append_cons, contains_cons, IH. apply orb_true_r.
Qed.

(** A label that is not mentioned stands nowhere. *)
Lemma not_mentioned_nowhere (label text : string) :
  mentions label text = false -> nowhere label text.
Proof.
  intros H p q ->. unfold mentions in H. rewrite lower_append in H.
  pose proof (skip_literal_prefix label q) as Hq.
  destruct (skip_literal I_S label q); [|reflexivity].
  symmetry in Hq. by rewrite (contains_suffix _ _ _ Hq) in H.
Qed.

Lemma search_none (fl : flags) (r : regex) (text : string) :
  (forall p q, text = p +:+ q -> match_here fl r q = None) ->
  search fl r text = None.
Proof.
  induction text as [|a text IH]; intros H; cbn [search].
  - by rewrite (H EmptyString EmptyString eq_refl).
  - rewrite (H EmptyString _ eq_refl). apply IH.
    intros p q ->. by apply (H (String a p) q).
Qed.

(** A pattern that starts with a literal matches nowhere in a text in
    which the literal stands nowhere. *)
Lemma search_label_nowhere (label : string) (rest : regex) (text : string) :
  nowhere label text -> search I_S (Seq (lit label) rest) text = None.
Proof.
  intros H. apply search_none. intros p q Hpq. unfold match_here.
  by rewrite matchk_Seq, matchk_lit, (H p q Hpq).
Qed.

Lemma LABELS_patterns (key label : string) :
  (key, label) ∈ LABELS ->
  key ∈ MANDATORY_FIELDS /\
  exists r rest, (key, r) ∈ PATTERNS /\ r = Seq (lit label) rest.
Proof.
  unfold LABELS. intros H.
  repeat (apply elem_of_cons in H as [[= -> ->]|H];
          [split; [unfold MANDATORY_FIELDS; in_list
                  |do 2 eexists; split; [unfold PATTERNS; in_list | reflexivity]]|]).
  by apply elem_of_nil in H.
Qed.

Lemma extract_fields_label_nowhere (text key label : string) :
  (key, label) ∈ LABELS -> nowhere label text ->
  exists f : fields, extract_fields text = Ok f /\ f !! key = Some None.
Proof.
  intros Hin Hno.
  destruct (LABELS_patterns key label Hin) as (_ & r & rest & Hr & ->).
  destruct (extract_fields_ok text) as (f & E & _).
  exists f. split; [exact E|].
  apply (extract_fields_no_match text f key _ E Hr).
  by apply search_label_nowhere.
Qed.



(** *** The attachments flag *)

Lemma skip_literal_I (w : string) :
  forall s, skip_literal I w s = skip_literal I_S w s.
Proof.
  induction w as [|c w IH]; intros s; [reflexivity|].
  destruct s as [|a s]; [reflexivity|]. cbn [skip_literal].
  change (same_char I c a) with (same_char I_S c a). by rewrite IH.
Qed.

Lemma match_here_lit (w s : string) :
  (if match_here I (lit w) s is Some _ then true else false) =
  String.prefix (Py.lower w) (Py.lower s).
Proof.
  unfold match_here. rewrite matchk_lit, skip_literal_I, <- skip_literal_prefix.
  by destruct (skip_literal I_S w s).
Qed.

(** Searching a literal under [re.I] is a substring test on the lower-cased
    strings. *)
Lemma search_lit_mentions (w text : string) :
  (if search I (lit w) text is Some _ then true else false) = mentions w text.
Proof.
  unfold mentions. induction text as [|a text IH].
  - cbn [search]. pose proof (match_here_lit w EmptyString) as H.
    change (Py.contains (Py.lower w) (Py.lower EmptyString))
      with (String.prefix (Py.lower w) (Py.lower EmptyString) || false).
    rewrite <- H. by destruct (match_here I (lit w) EmptyString).
  - cbn [search]. pose proof (match_here_lit w (String a text)) as H.
    cbn [Py.lower] in *. rewrite contains_cons, <- H, <- IH.
    by destruct (match_here I (lit w) (String a text)).
Qed.

(** X11. attachments is "Yes" exactly when the lower-cased text contains
    "attachment", and "Unknown" otherwise. *)
Theorem attachments_yes_iff_mentioned (text : string) :
  exists f : fields,
    extract_fields text = Ok f /\
    get f "attachments" =
      Some (if mentions "ATTACHMENT" text then "Yes" else "Unknown").
Proof.
  destruct (extract_fields_ok text) as (f & E & _ & _ & Hatt & _).
  exists f. split; [exact E|]. unfold get. rewrite Hatt.
  pose proof (search_lit_mentions "ATTACHMENT" text) as H.
  change (lit "ATTACHMENT") with pat_attachment in H. rewrite <- H.
  by destruct (search I pat_attachment text).
Qed.

(** *** Trimmed values *)

Lemma lstrip_starts_clean (s : string) : starts_clean (Py.lstrip s) = true.
Proof.
  induction s as [|a s IH]; [reflexivity|]. cbn [Py.lstrip].
  destruct (Py.isspace a) eqn:Ha; [exact IH|]. cbn [starts_clean]. by rewrite Ha.
Qed.

Lemma lstrip_clean (s : string) : starts_clean s = true -> Py.lstrip s = s.
Proof.
  destruct s as [|a s]; [reflexivity|]. cbn [starts_clean Py.lstrip].
  by intros ->%negb_true_iff.
Qed.

Lemma rstrip_starts_clean (s : string) :
  starts_clean s = true -> starts_clean (Py.rstrip s) = true.
Proof.
  destruct s as [|a s]; [reflexivity|]. cbn [starts_clean Py.rstrip].
  intros Ha. destruct (Py.rstrip s); [|exact Ha].
  pose proof Ha as Ha'. apply negb_true_iff in Ha'. by rewrite Ha'.
Qed.

Lemma rstrip_idem (s : string) : Py.rstrip (Py.rstrip s) = Py.rstrip s.
Proof.
  induction s as [|a s IH]; [reflexivity|]. cbn [Py.rstrip].
  destruct (Py.rstrip s) as [|b r] eqn:E.
  - destruct (Py.isspace a) eqn:Ha; [reflexivity|]. cbn [Py.rstrip]. by rewrite Ha.
  - cbn [Py.rstrip]. cbn [Py.rstrip] in IH. by rewrite IH.
Qed.

(** [str.strip] leaves a stripped string as it is. *)
Lemma strip_idem (s : string) : Py.strip (Py.strip s) = Py.strip s.
Proof.
  unfold Py.strip.
  rewrite (lstrip_clean (Py.rstrip (Py.lstrip s)))
    by apply rstrip_starts_clean, lstrip_starts_clean.
  apply rstrip_idem.
Qed.

Lemma mandatory_cases (k : string) :
  k ∈ MANDATORY_FIELDS ->
  k = "asset_type" \/ k = "attachments" \/ exists r, (k, r) ∈ PATTERNS.
Proof.
  unfold MANDATORY_FIELDS. intros H.
  repeat (apply elem_of_cons in H as [->|H];
          [first [by left | by right; left
                 | right; right; eexists; unfold PATTERNS; in_list]|]).
  by apply elem_of_nil in H.
Qed.

(** X12. Every value [extract_fields] returns is [None] or a trimmed
    string: stripping it again changes nothing. *)
Theorem extracted_values_are_trimmed (text : string) :
  exists f : fields,
    extract_fields text = Ok f /\
    forall k v, get f k = Some v -> Py.strip v = v.
Proof.
  destruct (extract_fields_ok text) as (f & E & Hpat & Hasset & Hatt & Hdom).
  exists f. split; [exact E|]. intros k v Hv.
  destruct (f !! k) as [o|] eqn:Hk; [|unfold get in Hv; by rewrite Hk in Hv].
  assert (Hin : k ∈ MANDATORY_FIELDS).
  { assert (Hd : k ∈ dom f) by (apply elem_of_dom; by eexists).
    rewrite Hdom in Hd. by apply elem_of_list_to_set in Hd. }
  destruct (mandatory_cases k Hin) as [->|[->|[r Hr]]].
  - unfold get in Hv. rewrite Hasset in Hv. by injection Hv as <-.
  - unfold get in Hv. rewrite Hatt in Hv. injection Hv as <-.
    by destruct (search I pat_attachment text).
  - destruct (Hpat k r Hr) as [Hfg _]. rewrite Hv in Hfg.
    unfold first_group in Hfg.
    destruct (search I_S r text) as [[[g|]]|]; [|discriminate..].
    injection Hfg as <-. apply strip_idem.
Qed.

(** ** What a match looks like *)

Section RunFacts.
Context {A : Type}.
Variable fl : flags.

Implicit Types (k : @cont A) (s : string) (g : option string).

Lemma repeat_greedy_sound cs k s :
  forall lo hi g x,
    repeat_greedy fl cs lo hi k s g = Some x ->
    exists s' g', run fl (Repeat true lo hi cs) s g s' g' /\ k s' g' = Some x.
Proof.
  induction s as [|a s IH]; intros lo hi g x; cbn [repeat_greedy].
  - destruct (Nat.eqb_spec lo 0) as [->|]; [|discriminate].
    intros H. exists EmptyString, g. split; [|exact H].
    exists EmptyString. repeat split; [lia|]. destruct hi; [cbn; lia | exact Logic.I].
  - assert (Hstop : (if Nat.eqb lo 0 then k (String a s) g else None) = Some x ->
                    exists s' g', run fl (Repeat true lo hi cs) (String a s) g s' g' /\
                                  k s' g' = Some x).
    { destruct (Nat.eqb_spec lo 0) as [->|]; [|discriminate].
      intros H. exists (String a s), g. split; [|exact H].
      exists EmptyString. repeat split; [lia|].
      destruct hi; [cbn; lia | exact Logic.I]. }
    destruct (may_take hi && cset_matches fl cs a) eqn:Ht; [|exact Hstop].
    apply andb_true_iff in Ht as [Hhi Ha].
    destruct (repeat_greedy fl cs (Nat.pred lo) (one_less hi) k s g) eqn:E;
      cbn [orelse]; [|exact Hstop].
    intros [= <-]. apply IH in E as (s' & g' & (w & -> & Hw & Hlo & Hbound & ->) & Hk).
    exists s', g. split; [|exact Hk].
    exists (String a w). rewrite append_cons.
    repeat split; [by cbn [all_in]; rewrite Ha, Hw | cbn; lia |].
    destruct hi as [[|h]|]; [discriminate Hhi | cbn in *; lia | exact Logic.I].
Qed.

Lemma repeat_lazy_sound cs k s :
  forall lo hi g x,
    repeat_lazy fl cs lo hi k s g = Some x ->
    exists s' g', run fl (Repeat false lo hi cs) s g s' g' /\ k s' g' = Some x.
Proof.
  induction s as [|a s IH]; intros lo hi g x; cbn [repeat_lazy].
  - destruct (Nat.eqb_spec lo 0) as [->|]; [|discriminate].
    intros H. exists EmptyString, g. split; [|exact H].
    exists EmptyString. repeat split; [lia|]. destruct hi; [cbn; lia | exact Logic.I].
  - assert (Hstop : (if Nat.eqb lo 0 then k (String a s) g else None) = Some x ->
                    exists s' g', run fl (Repeat false lo hi cs) (String a s) g s' g' /\
                                  k s' g' = Some x).
    { destruct (Nat.eqb_spec lo 0) as [->|]; [|discriminate].
      intros H. exists (String a s), g. split; [|exact H].
      exists EmptyString. repeat split; [lia|].
      destruct hi; [cbn; lia | exact Logic.I]. }
    destruct (may_take hi && cset_matches fl cs a) eqn:Ht; [|exact Hstop].
    apply andb_true_iff in Ht as [Hhi Ha].
    destruct (if Nat.eqb lo 0 then k (String a s) g else None) eqn:E0;
      cbn [orelse]; [intros [= <-]; by apply Hstop|].
    intros E. apply IH in E as (s' & g' & (w & -> & Hw & Hlo & Hbound & ->) & Hk).
    exists s', g. split; [|exact Hk].
    exists (String a w). rewrite append_cons.
    repeat split; [by cbn [all_in]; rewrite Ha, Hw | cbn; lia |].
    destruct hi as [[|h]|]; [discriminate Hhi | cbn in *; lia | exact Logic.I].
Qed.

(** Whatever the matcher finds is a run of the pattern. *)
Lemma matchk_sound r :
  forall k s g x,
    matchk fl r k s g = Some x ->
    exists s' g', run fl r s g s' g' /\ k s' g' = Some x.
Proof.
  induction r as [|cs|r1 IH1 r2 IH2|r1 IH1 r2 IH2|[] lo hi cs|r1 IH1|r1 IH1|];
    intros k s g x; cbn [matchk].
  - intros H. by exists s, g.
  - destruct s as [|a s]; [discriminate|].
    destruct (cset_matches fl cs a) eqn:Ha; [|discriminate].
    intros H. exists s, g. split; [|exact H]. by exists a.
  - intros H. apply IH1 in H as (s1 & g1 & H1 & H).
    apply IH2 in H as (s2 & g2 & H2 & H).
    exists s2, g2. split; [|exact H]. by exists s1, g1.
  - destruct (matchk fl r1 k s g) eqn:E; cbn [orelse].
    + intros [= <-]. apply IH1 in E as (s' & g' & H & Hk).
      exists s', g'. split; [by left | exact Hk].
    + intros H. apply IH2 in H as (s' & g' & H & Hk).
      exists s', g'. split; [by right | exact Hk].
  - apply repeat_greedy_sound.
  - apply repeat_lazy_sound.
  - destruct (matchk fl r1 k s g) eqn:E; cbn [orelse].
    + intros [= <-]. apply IH1 in E as (s' & g' & H & Hk).
      exists s', g'. split; [by left | exact Hk].
    + intros H. exists s, g. split; [by right | exact H].
  - intros H. apply IH1 in H as (s' & g' & H & Hk).
    eexists s', _. split; [|exact Hk]. by exists g'.
  - destruct s; [|discriminate]. intros H. by exists EmptyString, g.
Qed.
End RunFacts.

Lemma search_here (fl : flags) (r : regex) (text : string) (m : match_object) :
  search fl r text = Some m ->
  exists p q, text = p +:+ q /\ match_here fl r q = Some m.
Proof.
  induction text as [|a text IH]; cbn [search].
  - destruct (match_here fl r EmptyString) eqn:E; [|discriminate].
    intros [= <-]. by exists EmptyString, EmptyString.
  - destruct (match_here fl r (String a text)) eqn:E.
    + intros [= <-]. by exists EmptyString, (String a text).
    + intros H. apply IH in H as (p & q & -> & H). by exists (String a p), q.
Qed.

(** A value [first_group] returns is the trimmed group 1 of a run of the
    pattern somewhere in the text. *)
Lemma first_group_sound (r : regex) (text v : string) :
  first_group r text I_S = Ok (Some v) ->
  exists p q s' w,
    text = p +:+ q /\ run I_S r q None s' (Some w) /\ v = Py.strip w.
Proof.
  unfold first_group. destruct (search I_S r text) as [m|] eqn:E; [|discriminate].
  destruct m as [[w|]]; [|discriminate]. intros [= <-].
  apply search_here in E as (p & q & -> & E).
  apply matchk_sound in E as (s' & g' & Hrun & [= ->]).
  by exists p, q, s', w.
Qed.

(** ** The shape of the extracted values *)

Lemma all_chars_append (p : ascii -> bool) (s t : string) :
  all_chars p (s +:+ t) = all_chars p s && all_chars p t.
Proof.
  induction s as [|a s IH]; [reflexivity|].
  rewrite append_cons. cbn [all_chars]. by rewrite IH, andb_assoc.
Qed.

Lemma all_chars_impl (p q : ascii -> bool) (s : string) :
  (forall a, p a = true -> q a = true) ->
  all_chars p s = true -> all_chars q s = true.
Proof.
  intros Hpq. induction s as [|a s IH]; [reflexivity|]. cbn [all_chars].
  intros [Ha Hs]%andb_true_iff. by rewrite (Hpq a Ha), IH.
Qed.

Lemma all_in_all_chars (fl : flags) (cs : cset) (s : string) :
  all_in fl cs s = all_chars (cset_matches fl cs) s.
Proof. induction s as [|a s IH]; [reflexivity|]. cbn [all_in all_chars]. by rewrite IH. Qed.

Lemma all_chars_lstrip (p : ascii -> bool) (s : string) :
  all_chars p s = true -> all_chars p (Py.lstrip s) = true.
Proof.
  induction s as [|a s IH]; [reflexivity|]. cbn [Py.lstrip].
  destruct (Py.isspace a); [|done]. cbn [all_chars].
  intros [_ Hs]%andb_true_iff. by apply IH.
Qed.

Lemma all_chars_rstrip (p : ascii -> bool) (s : string) :
  all_chars p s = true -> all_chars p (Py.rstrip s) = true.
Proof.
  induction s as [|a s IH]; [reflexivity|]. cbn [Py.rstrip all_chars].
  intros [Ha Hs]%andb_true_iff. specialize (IH Hs).
  destruct (Py.rstrip s) as [|b r].
  - destruct (Py.isspace a); [reflexivity|]. cbn [all_chars]. by rewrite Ha.
  - cbn [all_chars] in *. by rewrite Ha, IH.
Qed.

(** Stripping keeps what holds of every character. *)
Lemma all_chars_strip (p : ascii -> bool) (s : string) :
  all_chars p s = true -> all_chars p (Py.strip s) = true.
Proof. intros H. by apply all_chars_rstrip, all_chars_lstrip. Qed.

Lemma rstrip_no_blank (s : string) :
  all_chars (fun a => negb (Py.isspace a)) s = true -> Py.rstrip s = s.
Proof.
  induction s as [|a s IH]; [reflexivity|]. cbn [Py.rstrip all_chars].
  intros [Ha Hs]%andb_true_iff. rewrite (IH Hs).
  destruct s; [|reflexivity]. apply negb_true_iff in Ha. by rewrite Ha.
Qed.

(** A string without blank characters is its own stripping. *)
Lemma strip_no_blank (s : string) :
  all_chars (fun a => negb (Py.isspace a)) s = true -> Py.strip s = s.
Proof.
  intros H. unfold Py.strip. rewrite lstrip_clean; [by apply rstrip_no_blank|].
  destruct s as [|a s]; [reflexivity|]. cbn [all_chars] in H.
  by apply andb_true_iff in H as [Ha _].
Qed.

Lemma lstrip_empty (s : string) :
  Py.lstrip s = EmptyString -> all_chars Py.isspace s = true.
Proof.
  induction s as [|a s IH]; [reflexivity|]. cbn [Py.lstrip all_chars].
  destruct (Py.isspace a); [exact IH | discriminate].
Qed.

Lemma rstrip_empty (s : string) :
  Py.rstrip s = EmptyString -> all_chars Py.isspace s = true.
Proof.
  induction s as [|a s IH]; [reflexivity|]. cbn [Py.rstrip all_chars].
  destruct (Py.rstrip s); [|discriminate].
  destruct (Py.isspace a); [intros _; by apply IH | discriminate].
Qed.

(** Only a string of blank characters strips to the empty string. *)
Lemma strip_empty (s : string) :
  Py.strip s = EmptyString -> all_chars Py.isspace s = true.
Proof.
  unfold Py.strip. intros H. apply rstrip_empty in H.
  pose proof (lstrip_starts_clean s) as Hc.
  destruct (Py.lstrip s) as [|a t] eqn:E; [by apply lstrip_empty|].
  cbn [starts_clean all_chars] in *. apply andb_true_iff in H as [Ha _].
  by rewrite Ha in Hc.
Qed.

(** The group of a pattern that ends with its group *)
Lemma run_group_repeat (fl : flags) (gr : bool) (lo : nat) (hi : option nat)
      (cs : cset) (s : string) (g : option string) (s' w : string) :
  run fl (Group (Repeat gr lo hi cs)) s g s' (Some w) ->
  all_in fl cs w = true /\ (lo <= String.length w)%nat /\
  match hi with
  | Some h => (String.length w <= h)%nat
  | None => True
  end.
Proof.
  cbn [run]. intros (g1 & (w' & -> & Hall & Hlo & Hhi & _) & [= ->]).
  by rewrite consumed_append.
Qed.

(** *** Character sets *)

Lemma policy_set (a : ascii) :
  cset_matches I_S (In [Range "A" "Z"; Range "0" "9"; Lit "-"]) a = true ->
  policy_char a = true /\ negb (Py.isspace a) = true.
Proof. destruct a as [[] [] [] [] [] [] [] []]; vm_compute; intros H; (done || discriminate H). Qed.

Lemma vin_set (a : ascii) :
  cset_matches I_S (In [Range "A" "H"; Range "J" "N"; Lit "P"; Range "R" "Z";
                        Range "0" "9"]) a = true ->
  vin_char a = true /\ negb (Py.isspace a) = true.
Proof. destruct a as [[] [] [] [] [] [] [] []]; vm_compute; intros H; (done || discriminate H). Qed.

Lemma digit_set (a : ascii) :
  cset_matches I_S digit09 a = true ->
  Py.isdecimal a = true /\ negb (Py.isspace a) = true.
Proof. destruct a as [[] [] [] [] [] [] [] []]; vm_compute; intros H; (done || discriminate H). Qed.

Lemma slash_set (a : ascii) : cset_matches I_S (In [Lit "/"]) a = true -> a = "/"%char.
Proof. destruct a as [[] [] [] [] [] [] [] []]; vm_compute; intros H; (done || discriminate H). Qed.

Lemma not_newline_set (a : ascii) :
  cset_matches I_S not_newline a = true -> negb (Ascii.eqb a LF) = true.
Proof. by rewrite not_newline_matches. Qed.

Lemma one_line_all_chars (s : string) :
  one_line s = all_chars (fun a => negb (Ascii.eqb a LF)) s.
Proof. induction s as [|a s IH]; [reflexivity|]. cbn [one_line all_chars]. by rewrite IH. Qed.

(** What [extract_fields] puts under a pattern key *)
Lemma extract_fields_value (text : string) (f : fields) (k : string) (r : regex) (v : string) :
  extract_fields text = Ok f -> (k, r) ∈ PATTERNS -> get f k = Some v ->
  first_group r text I_S = Ok (Some v).
Proof.
  intros E Hin Hv. destruct (extract_fields_ok text) as (f' & E' & Hpat & _).
  rewrite E in E'. injection E' as <-.
  destruct (Hpat k r Hin) as [Hfg _]. by rewrite Hv in Hfg.
Qed.

Ltac pattern_value text f E key pat v Hv Hrun :=
  let p := fresh "p" in let q := fresh "q" in let s' := fresh "s'" in
  let w := fresh "w" in
  apply (extract_fields_value text f key pat v E) in Hv;
    [|unfold PATTERNS; in_list];
  apply first_group_sound in Hv as (p & q & s' & w & _ & Hrun & ->).

(** X13. A policy_number that is not [None] is a non-empty string of
    letters of either case, digits and hyphens. *)
Theorem policy_number_shape (text : string) :
  exists f : fields,
    extract_fields text = Ok f /\
    forall v, get f "policy_number" = Some v ->
              v <> EmptyString /\ all_chars policy_char v = true.
Proof.
  destruct (extract_fields_ok text) as (f & E & _).
  exists f. split; [exact E|]. intros v Hv.
  pattern_value text f E "policy_number" pat_policy_number v Hv Hrun.
  unfold pat_policy_number in Hrun. cbn [seqs] in Hrun.
  destruct Hrun as (? & ? & _ & ? & ? & _ & ? & ? & _ & ? & ? & _ & Hrun).
  apply run_group_repeat in Hrun as (Hall & Hlen & _).
  rewrite all_in_all_chars in Hall.
  rewrite strip_no_blank
    by (eapply all_chars_impl; [|exact Hall]; intros a Ha; by apply policy_set).
  split; [by destruct w; [cbn in Hlen; lia|]|].
  eapply all_chars_impl; [|exact Hall]. intros a Ha. by apply policy_set.
Qed.

(** X14. An asset_id that is not [None] has between 11 and 17 characters,
    each a digit or a letter of either case other than I, O and Q. *)
Theorem asset_id_shape (text : string) :
  exists f : fields,
    extract_fields text = Ok f /\
    forall v, get f "asset_id" = Some v ->
              (11 <= String.length v <= 17)%nat /\ all_chars vin_char v = true.
Proof.
  destruct (extract_fields_ok text) as (f & E & _).
  exists f. split; [exact E|]. intros v Hv.
  pattern_value text f E "asset_id" pat_asset_id v Hv Hrun.
  unfold pat_asset_id in Hrun. cbn [seqs] in Hrun.
  destruct Hrun as (? & ? & _ & ? & ? & _ & ? & ? & _ & ? & ? & _ & ? & ? & _
                    & ? & ? & _ & ? & ? & _ & Hrun).
  apply run_group_repeat in Hrun as (Hall & Hlo & Hhi).
  rewrite all_in_all_chars in Hall.
  rewrite strip_no_blank
    by (eapply all_chars_impl; [|exact Hall]; intros a Ha; by apply vin_set).
  split; [lia|].
  eapply all_chars_impl; [|exact Hall]. intros a Ha. by apply vin_set.
Qed.

(** X15. A claimant, third_parties or claim_type that is not [None] is on
    one line: it has no line feed. *)
Theorem same_line_values_have_no_line_feed (text : string) :
  exists f : fields,
    extract_fields text = Ok f /\
    forall k v, k ∈ ["claimant"; "third_parties"; "claim_type"] ->
                get f k = Some v -> one_line v = true.
Proof.
  destruct (extract_fields_ok text) as (f & E & _).
  exists f. split; [exact E|]. intros k v Hk Hv.
  assert (Hend : forall s g s' w,
             run I_S (Group (plus not_newline)) s g s' (Some w) ->
             one_line (Py.strip w) = true).
  { intros s g s' w Hrun. apply run_group_repeat in Hrun as (Hall & _).
    rewrite all_in_all_chars in Hall. rewrite one_line_all_chars.
    apply all_chars_strip. eapply all_chars_impl; [|exact Hall].
    apply not_newline_set. }
  rewrite !elem_of_cons, elem_of_nil in Hk.
  destruct Hk as [->|[->|[->|[]]]].
  - pattern_value text f E "claimant" pat_claimant v Hv Hrun.
    unfold pat_claimant in Hrun. cbn [seqs] in Hrun.
    destruct Hrun as (? & ? & _ & ? & ? & _ & Hrun). by eapply Hend.
  - pattern_value text f E "third_parties" pat_third_parties v Hv Hrun.
    unfold pat_third_parties in Hrun. cbn [seqs] in Hrun.
    destruct Hrun as (? & ? & _ & ? & ? & _ & ? & ? & _ & Hrun). by eapply Hend.
  - pattern_value text f E "claim_type" pat_claim_type v Hv Hrun.
    unfold pat_claim_type in Hrun. cbn [seqs] in Hrun.
    destruct Hrun as (? & ? & _ & ? & ? & _ & Hrun). by eapply Hend.
Qed.

Lemma append_assoc (s t u : string) : (s +:+ t) +:+ u = s +:+ (t +:+ u).
Proof. induction s as [|a s IH]; [reflexivity|]. by rewrite !append_cons, IH. Qed.

(** X16. An incident_date that is not [None] is two digits, a slash, two
    digits, a slash and four digits. *)
Theorem incident_date_shape (text : string) :
  exists f : fields,
    extract_fields text = Ok f /\
    forall v, get f "incident_date" = Some v -> is_date v = true.
Proof.
  destruct (extract_fields_ok text) as (f & E & _).
  exists f. split; [exact E|]. intros v Hv.
  pattern_value text f E "incident_date" pat_incident_date v Hv Hrun.
  unfold pat_incident_date in Hrun. cbn [seqs] in Hrun.
  destruct Hrun as (? & ? & _ & ? & ? & _ & g1 & Hrun & [= ->]).
  destruct Hrun as (? & ? & (w1 & -> & H1 & Hlo1 & Hhi1 & _)
                    & ? & ? & (a1 & -> & Ha1 & _)
                    & ? & ? & (w2 & -> & H2 & Hlo2 & Hhi2 & _)
                    & ? & ? & (a2 & -> & Ha2 & _)
                    & (w3 & -> & H3 & Hlo3 & Hhi3 & _)).
  apply slash_set in Ha1 as ->. apply slash_set in Ha2 as ->.
  destruct w1 as [|d1 [|d2 [|? ?]]]; cbn [String.length] in Hlo1, Hhi1; try lia.
  destruct w2 as [|d3 [|d4 [|? ?]]]; cbn [String.length] in Hlo2, Hhi2; try lia.
  destruct w3 as [|d5 [|d6 [|d7 [|d8 [|? ?]]]]];
    cbn [String.length] in Hlo3, Hhi3; try lia.
  cbn [all_in] in H1, H2, H3.
  repeat match goal with
         | H : _ && _ = true |- _ => apply andb_true_iff in H as [? ?]
         | H : cset_matches I_S digit09 _ = true |- _ => apply digit_set in H as [? ?]
         end.
  rewrite !append_cons, !append_nil_l.
  match goal with
  | |- context [consumed ?s s'] =>
      replace (consumed s s')
        with (string_of_list_ascii [d1; d2; "/"; d3; d4; "/"; d5; d6; d7; d8])%char
        by (symmetry; apply (consumed_append
              (string_of_list_ascii [d1; d2; "/"; d3; d4; "/"; d5; d6; d7; d8])%char s'))
  end.
  rewrite strip_no_blank.
  - cbn. repeat match goal with H : Py.isdecimal _ = true |- _ => rewrite H; clear H end.
    reflexivity.
  - cbn [string_of_list_ascii all_chars].
    repeat match goal with H : negb (Py.isspace _) = true |- _ => rewrite H; clear H end.
    reflexivity.
Qed.

Lemma dollar_set (a : ascii) :
  cset_matches I_S (In [Lit "$"]) a = true -> amount_char a = true.
Proof. destruct a as [[] [] [] [] [] [] [] []]; vm_compute; intros H; (done || discriminate H). Qed.

Lemma blank_set (a : ascii) :
  cset_matches I_S blank a = true -> amount_char a = true.
Proof. destruct a as [[] [] [] [] [] [] [] []]; vm_compute; intros H; (done || discriminate H). Qed.

Lemma numeral_set (a : ascii) :
  cset_matches I_S (In [Range "0" "9"; Lit ","; Lit "."]) a = true ->
  amount_char a = true /\ Py.isspace a = false.
Proof. destruct a as [[] [] [] [] [] [] [] []]; vm_compute; intros H; (done || discriminate H). Qed.

(** The group of the two amount patterns *)
Lemma amount_group (s : string) (g : option string) (s' w : string) :
  run I_S (Group amount) s g s' (Some w) ->
  Py.strip w <> EmptyString /\ all_chars amount_char (Py.strip w) = true.
Proof.
  unfold amount. cbn [seqs].
  intros (g1 & (? & ? & (w1 & -> & H1 & _) & ? & ? & (w2 & -> & H2 & _)
               & (w3 & -> & H3 & Hlen & _)) & [= ->]).
  rewrite <- !append_assoc, consumed_append, !append_assoc.
  rewrite !all_in_all_chars in *.
  split.
  - intros Hs. apply strip_empty in Hs.
    rewrite !all_chars_append in Hs.
    apply andb_true_iff in Hs as [_ [_ Hs]%andb_true_iff].
    destruct w3 as [|x w3]; [cbn in Hlen; lia|]. cbn [all_chars] in *.
    apply andb_true_iff in H3 as [Hx _]. apply numeral_set in Hx as [_ Hx].
    by rewrite Hx in Hs.
  - apply all_chars_strip. rewrite !all_chars_append.
    rewrite (all_chars_impl _ amount_char w1 dollar_set H1).
    rewrite (all_chars_impl _ amount_char w2 blank_set H2).
    by rewrite (all_chars_impl _ amount_char w3 (fun a Ha => proj1 (numeral_set a Ha)) H3).
Qed.

(** X17. An estimated_damage or initial_estimate that is not [None] is not
    blank, and is made of dollar signs, blanks, digits, commas and points
    only. *)
Theorem amount_values_shape (text : string) :
  exists f : fields,
    extract_fields text = Ok f /\
    forall k v, k ∈ ["estimated_damage"; "initial_estimate"] ->
                get f k = Some v ->
                v <> EmptyString /\ all_chars amount_char v = true.
Proof.
  destruct (extract_fields_ok text) as (f & E & _).
  exists f. split; [exact E|]. intros k v Hk Hv.
  rewrite !elem_of_cons, elem_of_nil in Hk.
  destruct Hk as [->|[->|[]]].
  - pattern_value text f E "estimated_damage" pat_estimated_damage v Hv Hrun.
    unfold pat_estimated_damage in Hrun. cbn [seqs] in Hrun.
    destruct Hrun as (? & ? & _ & ? & ? & _ & Hrun). by eapply amount_group.
  - pattern_value text f E "initial_estimate" pat_initial_estimate v Hv Hrun.
    unfold pat_initial_estimate in Hrun. cbn [seqs] in Hrun.
    destruct Hrun as (? & ? & _ & ? & ? & _ & Hrun). by eapply amount_group.
Qed.

(** ** The pipeline *)

(** The steps of a run of [process_fnol] that returns *)
Lemma process_fnol_steps (pdf_pages : string -> result (list (option string)))
      (path : string) (c : claim_result) :
  process_fnol pdf_pages path = Ok c ->
  exists pages,
    pdf_pages path = Ok pages /\
    extract_fields (Py.join (String LF "") (map (fun p => or_str p "") pages))
      = Ok (extractedFields c) /\
    find_missing_fields (extractedFields c) = Ok (missingFields c) /\
    route_claim (extractedFields c) (missingFields c)
      = Ok (recommendedRoute c, reasoning c).
Proof.
  unfold process_fnol, pdf_to_text.
  destruct (pdf_pages path) as [pages|e]; [|discriminate]. cbn [bind].
  destruct (extract_fields _) as [f|e] eqn:Ef; [|discriminate]. cbn [bind].
  destruct (find_missing_fields f) as [missing|e] eqn:Em; [|discriminate]. cbn [bind].
  destruct (route_claim f missing) as [[d j]|e] eqn:Er; [|discriminate]. cbn [bind].
  intros [= <-]. exists pages. by cbn.
Qed.

(** A document that opens gives a result. *)
Lemma process_fnol_returns (pdf_pages : string -> result (list (option string)))
      (path : string) (pages : list (option string)) :
  pdf_pages path = Ok pages ->
  exists c, process_fnol pdf_pages path = Ok c.
Proof.
  intros Hp. unfold process_fnol, pdf_to_text. rewrite Hp. cbn [bind].
  destruct (extract_fields_ok (Py.join (String LF "") (map (fun p => or_str p "") pages)))
    as (f & -> & _). cbn [bind].
  rewrite find_missing_fields_filter. cbn [bind].
  destruct (route_claim_answer f (filter (fun k => absent_or_blank (get f k)) MANDATORY_FIELDS))
    as (d & j & -> & _). cbn [bind].
  by eexists.
Qed.

(** X18. [process_fnol] raises exactly when the document cannot be read,
    and then it raises the same exception; on a document that opens it
    returns a result, whatever the pages hold. *)
Theorem process_fnol_raises_only_on_open
        (pdf_pages : string -> result (list (option string))) (path : string) :
  match pdf_pages path with
  | Raise e => process_fnol pdf_pages path = Raise e
  | Ok _ => exists c, process_fnol pdf_pages path = Ok c
  end.
Proof.
  destruct (pdf_pages path) as [pages|e] eqn:Hp.
  - by apply (process_fnol_returns pdf_pages path pages).
  - unfold process_fnol, pdf_to_text. by rewrite Hp.
Qed.

Lemma complete_estimate (f : fields) :
  filter (fun k => absent_or_blank (get f k)) MANDATORY_FIELDS = [] ->
  exists v, get f "estimated_damage" = Some v /\ Py.strip v <> EmptyString /\
            Py.truthy (Some v) = true.
Proof.
  rewrite filter_nil_forall. intros H.
  assert (Hin : "estimated_damage" ∈ MANDATORY_FIELDS)
    by (unfold MANDATORY_FIELDS; in_list).
  apply H, not_absent_or_blank in Hin as (v & Hv & Hs).
  exists v. split; [exact Hv|]. split; [exact Hs|].
  by destruct v.
Qed.

(** X19. What [process_fnol] returns hangs together: the dict has the 16
    catalog keys, the missing list is the one of [find_missing_fields] on
    that dict, the route is one of the four destinations, and a missing
    list that is not empty means "Manual review" with the missing fields
    named in the reasoning. *)
Theorem process_fnol_result_consistent
        (pdf_pages : string -> result (list (option string)))
        (path : string) (c : claim_result) :
  process_fnol pdf_pages path = Ok c ->
  dom (extractedFields c) = list_to_set MANDATORY_FIELDS /\
  find_missing_fields (extractedFields c) = Ok (missingFields c) /\
  recommendedRoute c ∈ DESTINATIONS /\
  (missingFields c <> [] ->
   recommendedRoute c = "Manual review" /\
   reasoning c = "Missing mandatory fields: " +:+ Py.join ", " (missingFields c)).
Proof.
  intros H. apply process_fnol_steps in H as (pages & _ & Ef & Em & Er).
  destruct (extract_fields_ok (Py.join (String LF "") (map (fun p => or_str p "") pages)))
    as (f & Ef' & _ & _ & _ & Hdom).
  rewrite Ef in Ef'. injection Ef' as <-.
  split; [exact Hdom|]. split; [exact Em|]. split.
  - destruct (route_claim_answer (extractedFields c) (missingFields c))
      as (d & j & Er' & Hd).
    rewrite Er in Er'. by injection Er' as -> _.
  - intros Hne. rewrite (route_claim_missing _ _ Hne) in Er. by injection Er as <- <-.
Qed.

Lemma process_fnol_result_consistent_witness :
  process_fnol (fun _ => Ok [Some notice_without_estimate]) "notice.pdf"
    = Ok result_without_estimate /\
  recommendedRoute result_without_estimate ∈ DESTINATIONS /\
  (missingFields result_without_estimate <> [] ->
   recommendedRoute result_without_estimate = "Manual review" /\
   reasoning result_without_estimate
     = "Missing mandatory fields: " +:+ Py.join ", " (missingFields result_without_estimate)).
Proof.
  assert (E : process_fnol (fun _ => Ok [Some notice_without_estimate]) "notice.pdf"
              = Ok result_without_estimate) by (vm_compute; reflexivity).
  split; [exact E|].
  apply (process_fnol_result_consistent _ _ _ E).
Defined.

(** X20. In the pipeline "Fast-track" is decided by the extracted
    estimated_damage alone: a result with that route has an empty missing
    list, an estimated_damage that is a string, not blank, whose amount is
    not zero and under 25000, and neither a fraud keyword nor an injury. *)
Theorem fast_track_needs_extracted_estimate
        (pdf_pages : string -> result (list (option string)))
        (path : string) (c : claim_result) :
  process_fnol pdf_pages path = Ok c ->
  recommendedRoute c = "Fast-track" ->
  missingFields c = [] /\
  fraud_keyword (extractedFields c) = false /\
  injury (extractedFields c) = false /\
  exists v,
    get (extractedFields c) "estimated_damage" = Some v /\
    Py.strip v <> EmptyString /\
    small_amount v = true.
Proof.
  intros H Hr. apply process_fnol_steps in H as (pages & _ & _ & Em & Er).
  rewrite Hr in Er. rewrite find_missing_fields_filter in Em. injection Em as Em.
  destruct (missingFields c) as [|k missing] eqn:Hm.
  2:{ rewrite route_claim_missing in Er by discriminate. discriminate Er. }
  split; [reflexivity|].
  destruct (complete_estimate _ Em) as (v & Hv & Hs & Ht).
  destruct (route_claim_est (extractedFields c) []) as (est & Hest & Er').
  rewrite Er in Er'. unfold Py.or_else in Hest. rewrite Hv, Ht in Hest.
  destruct (fraud_keyword (extractedFields c)); [discriminate Er'|].
  destruct (injury (extractedFields c)); [discriminate Er'|].
  split; [reflexivity|]. split; [reflexivity|].
  exists v. split; [exact Hv|]. split; [exact Hs|].
  unfold small_amount. rewrite Hest.
  by destruct (Float.truthy est && Float.ltb est (Float.of_int 25000)).
Qed.

Lemma fast_track_needs_extracted_estimate_witness :
  process_fnol (fun _ => Ok [Some notice_with_estimate]) "notice.pdf"
    = Ok result_with_estimate /\
  exists v,
    get (extractedFields result_with_estimate) "estimated_damage" = Some v /\
    Py.strip v <> EmptyString /\
    small_amount v = true.
Proof.
  assert (E : process_fnol (fun _ => Ok [Some notice_with_estimate]) "notice.pdf"
              = Ok result_with_estimate) by (vm_compute; reflexivity).
  split; [exact E|].
  apply (fast_track_needs_extracted_estimate _ _ _ E). reflexivity.
Defined.



(** *** Pages without text *)

Lemma lower_line_feeds (s : string) : line_feeds s = true -> Py.lower s = s.
Proof.
  unfold line_feeds. induction s as [|a s IH]; [reflexivity|]. cbn [all_chars Py.lower].
  intros [Ha Hs]%andb_true_iff. apply Ascii.eqb_eq in Ha as ->. by rewrite IH.
Qed.

Lemma contains_line_feeds (a : ascii) (w s : string) :
  a <> LF -> line_feeds s = true -> Py.contains (String a w) s = false.
Proof.
  intros Ha. unfold line_feeds. induction s as [|b s IH]; [reflexivity|].
  cbn [all_chars]. intros [Hb Hs]%andb_true_iff. apply Ascii.eqb_eq in Hb as ->.
  rewrite contains_cons, (IH Hs), orb_false_r.
  cbn [String.prefix]. by destruct (ascii_dec a LF).
Qed.

Lemma mentions_line_feeds (a : ascii) (w text : string) :
  Py.tolower a <> LF -> line_feeds text = true -> mentions (String a w) text = false.
Proof.
  intros Ha Ht. unfold mentions. rewrite (lower_line_feeds text Ht).
  by apply contains_line_feeds.
Qed.

Lemma line_feeds_append (s t : string) :
  line_feeds (s +:+ t) = line_feeds s && line_feeds t.
Proof. apply all_chars_append. Qed.

(** The text of pages without text is a run of line feeds. *)
Lemma join_textless_pages (pages : list (option string)) :
  (forall p, p ∈ pages -> Py.truthy p = false) ->
  line_feeds (Py.join (String LF "") (map (fun p => or_str p "") pages)) = true.
Proof.
  unfold Py.join. induction pages as [|p pages IH]; intros H; [reflexivity|].
  assert (Hp : or_str p "" = "").
  { pose proof (H p (list_elem_of_here _ _)) as Hp. by destruct p as [[|? ?]|]. }
  assert (Hps : forall q, q ∈ pages -> Py.truthy q = false)
    by (intros q Hq; apply H; by apply list_elem_of_further).
  specialize (IH Hps).
  destruct pages as [|q pages]; cbn [map String.concat] in *; rewrite Hp; [reflexivity|].
  by rewrite append_nil_l, append_cons, append_nil_l.
Qed.

Lemma LABELS_letters (key label : string) :
  (key, label) ∈ LABELS ->
  exists a w, label = String a w /\ Py.tolower a <> LF.
Proof.
  unfold LABELS. intros H.
  repeat (apply elem_of_cons in H as [[= -> ->]|H];
          [do 2 eexists; split; [reflexivity | discriminate]|]).
  by apply elem_of_nil in H.
Qed.

Lemma PATTERN_FIELDS_labels (k : string) :
  k ∈ PATTERN_FIELDS -> exists label, (k, label) ∈ LABELS.
Proof.
  unfold PATTERN_FIELDS. intros H.
  repeat (apply elem_of_cons in H as [->|H]; [eexists; unfold LABELS; in_list|]).
  by apply elem_of_nil in H.
Qed.

(** The missing list of a dict whose pattern fields are all [None] *)
Lemma missing_pattern_fields (f : fields) :
  (forall k, k ∈ PATTERN_FIELDS -> get f k = None) ->
  get f "asset_type" = Some "Vehicle" ->
  (exists v, get f "attachments" = Some v /\ Py.strip v <> EmptyString) ->
  filter (fun k => absent_or_blank (get f k)) MANDATORY_FIELDS = PATTERN_FIELDS.
Proof.
  intros Hpat Hasset (v & Hatt & Hv).
  transitivity (filter (fun k => k ∈ PATTERN_FIELDS) MANDATORY_FIELDS);
    [|vm_compute; reflexivity].
  apply filter_agree. intros k Hk.
  destruct (decide (k ∈ PATTERN_FIELDS)) as [Hin|Hnot].
  - rewrite (Hpat k Hin). by split.
  - split; [|by intros ?]. intros Habs. exfalso.
    apply mandatory_cases in Hk as [->|[->|(r & Hr)]].
    + rewrite Hasset in Habs. discriminate Habs.
    + rewrite Hatt in Habs. by apply Hv.
    + apply Hnot. clear -Hr. unfold PATTERNS in Hr.
      repeat (apply elem_of_cons in Hr as [[= -> _]|Hr];
              [unfold PATTERN_FIELDS; in_list|]).
      by apply elem_of_nil in Hr.
Qed.

(** X22. A document whose pages all have no text (none at all, or pages
    that give [None] or the empty string) comes out with the 14 pattern
    fields missing, attachments "Unknown" and the route "Manual review". *)
Theorem textless_document_goes_to_manual_review
        (pdf_pages : string -> result (list (option string)))
        (path : string) (pages : list (option string)) :
  pdf_pages path = Ok pages ->
  (forall p, p ∈ pages -> Py.truthy p = false) ->
  exists c,
    process_fnol pdf_pages path = Ok c /\
    get (extractedFields c) "attachments" = Some "Unknown" /\
    missingFields c = PATTERN_FIELDS /\
    recommendedRoute c = "Manual review".
Proof.
  intros Hp Hpages.
  destruct (process_fnol_returns pdf_pages path pages Hp) as (c & Hc).
  exists c. split; [exact Hc|].
  apply process_fnol_steps in Hc as (pages' & Hp' & Ef & Em & Er).
  rewrite Hp in Hp'. injection Hp' as <-.
  pose proof (join_textless_pages pages Hpages) as Hlf.
  set (text := Py.join (String LF "") (map (fun p => or_str p "") pages)) in *.
  destruct (extract_fields_ok text) as (f & Ef' & _ & Hasset & Hatt & _).
  rewrite Ef in Ef'. injection Ef' as <-.
  assert (Hunknown : get (extractedFields c) "attachments" = Some "Unknown").
  { unfold get. rewrite Hatt.
    pose proof (search_lit_mentions "ATTACHMENT" text) as H.
    change (lit "ATTACHMENT") with pat_attachment in H.
    rewrite (mentions_line_feeds "A" "TTACHMENT" text) in H by (done || discriminate).
    by destruct (search I pat_attachment text). }
  assert (Hm : missingFields c = PATTERN_FIELDS).
  { rewrite find_missing_fields_filter in Em. injection Em as <-.
    apply missing_pattern_fields.
    - intros k Hk. apply PATTERN_FIELDS_labels in Hk as (label & Hl).
      destruct (LABELS_letters k label Hl) as (a & w & -> & Ha).
      destruct (extract_fields_label_nowhere text k _ Hl) as (f & Ef' & Hk).
      { apply not_mentioned_nowhere. by apply mentions_line_feeds. }
      rewrite Ef in Ef'. injection Ef' as <-. unfold get. by rewrite Hk.
    - unfold get. by rewrite Hasset.
    - exists "Unknown". split; [exact Hunknown|]. discriminate. }
  split; [exact Hunknown|]. split; [exact Hm|].
  rewrite route_claim_missing in Er by (rewrite Hm; discriminate).
  by injection Er as <- _.
Qed.

Lemma textless_document_witness :
  exists c,
    process_fnol (fun _ => Ok [None; Some ""; None]) "scan.pdf" = Ok c /\
    get (extractedFields c) "attachments" = Some "Unknown" /\
    missingFields c = PATTERN_FIELDS /\
    recommendedRoute c = "Manual review".
Proof.
  apply (textless_document_goes_to_manual_review
           (fun _ => Ok [None; Some ""; None]) "scan.pdf" [None; Some ""; None]);
    [reflexivity|].
  intros p Hp. rewrite !elem_of_cons, elem_of_nil in Hp.
  by destruct Hp as [->|[->|[->|[]]]].
Defined.
